(** * Perspective box: geometry engine and control-point state machine

    A shallow embedding of [src/main.ts]: the [Point]/[Vector]/[Line]
    primitives, [Line.intersectWith], [isOnLeftOf], [convexHull], the
    shadow part of [Box.draw], the [ControlPoints] state machine
    ([select], [moveTo], [deselect]), [Config], and [main] with its
    listeners.

    Numbers.  The source computes on IEEE doubles.  The development
    reads every [number] as an exact rational ([Q]): [+], [-], [*], [/]
    are the field operations, [=== 0] is equality of rationals and [<],
    [>] the order of rationals.  The literal [0.3] is the rational 3/10.
    Rounding, infinities and NaN are outside this model.  Two rationals
    are the same number when they are [Qeq]-equal ([==]). *)

From Stdlib Require Import QArith Qfield Lqa Lia List Bool Arith PeanoNat.
Import ListNotations.

Local Open Scope Q_scope.

(** ** Exceptions *)

(** The source throws [Error] objects with four different messages; an
    index that is out of range reads [undefined], and the property access
    that follows raises a [TypeError]. *)
Inductive Error : Type :=
| ConvexHullNeedsThreePoints   (* "Convex hull needs at least three points" *)
| LinesAreParallel             (* "Lines are parallel" *)
| ControlPointTypeNotFound     (* "ControlPointType ... not found" *)
| ContextIsNull                (* "Context is null" *)
| TypeErrorUndefined.          (* property read on [undefined] *)

Inductive result (A : Type) : Type :=
| Ok (a : A)
| Throw (e : Error).
Arguments Ok {A} a.
Arguments Throw {A} e.

Definition bind {A B : Type} (r : result A) (k : A -> result B) : result B :=
  match r with
  | Ok a => k a
  | Throw e => Throw e
  end.

Notation "x <- r ;; k" := (bind r (fun x => k))
  (at level 61, r at next level, right associativity).

(** [s[i]] followed by a property read. *)
Definition index {A : Type} (s : list A) (i : nat) : result A :=
  match nth_error s i with
  | Some a => Ok a
  | None => Throw TypeErrorUndefined
  end.

(** [for (let i = a; i < a + count; i++) st = body(i, st)] *)
Fixpoint forLoop {St : Type} (body : nat -> St -> result St)
         (i count : nat) (st : St) : result St :=
  match count with
  | O => Ok st
  | S c => st' <- body i st ;; forLoop body (S i) c st'
  end.

(** Strict comparison of two numbers. *)
Definition Qltb (a b : Q) : bool :=
  match a ?= b with
  | Lt => true
  | _ => false
  end.

(** ** Points and vectors *)

Record Vector : Type := mkVector { vx : Q; vy : Q }.
Record Point : Type := mkPoint { x : Q; y : Q }.

Module Point.
Definition vectorFrom (this other : Point) : Vector :=
  mkVector (x this - x other) (y this - y other).

Definition plus (this : Point) (v : Vector) : Point :=
  mkPoint (x this + vx v) (y this + vy v).

Definition minus (this : Point) (other : Vector) : Point :=
  mkPoint (x this - vx other) (y this - vy other).
End Point.

(** [Math.sqrt(a)] of a rational [a] is in general not a rational: its
    exact value is kept as the radicand [a]. *)
Record Sqrt : Type := mkSqrt { radicand : Q }.

(** [Math.sqrt(a) <= r] for a radicand [a] that is not negative: [r] is
    not negative and [a <= r * r]. *)
Definition Sqrt_leb (a : Sqrt) (r : Q) : bool :=
  Qle_bool 0 r && Qle_bool (radicand a) (r * r).

Module Vector.
Definition times (this : Vector) (m : Q) : Vector :=
  mkVector (vx this * m) (vy this * m).

Definition length (this : Vector) : Sqrt :=
  mkSqrt (vx this * vx this + vy this * vy this).

(** [public static UP = new Vector(0, -100)] *)
Definition UP : Vector := mkVector 0 (-100).
End Vector.

(** Two points with the same coordinates (as numbers). *)
Definition Peq (p q : Point) : Prop := x p == x q /\ y p == y q.
Infix "=p=" := Peq (at level 70, no associativity).

Definition Peqb (p q : Point) : bool :=
  Qeq_bool (x p) (x q) && Qeq_bool (y p) (y q).

(** ** Lines *)

Record Line : Type := mkLine {
  begin : Point;
  end_ : Point;
  stopAtBegin : bool;
  stopAtEnd : bool
}.

Module Line.
Definition intersectWith (this other : Line) : result Point :=
  let tr := Point.vectorFrom (end_ this) (begin this) in
  let or := Point.vectorFrom (end_ other) (begin other) in
  let denom := vy tr * vx or - vx tr * vy or in
  if Qeq_bool denom 0 then Throw LinesAreParallel
  else
    let t := ((x (begin this) - x (begin other)) * vy or
              - (y (begin this) - y (begin other)) * vx or) / denom in
    Ok (Point.plus (begin this) (Vector.times tr t)).

Definition upFrom (p : Point) : Line :=
  mkLine p (Point.plus p Vector.UP) true true.
End Line.

(** Vocabulary of the specification for lines. *)

(** The direction vector of a line: end − begin. *)
Definition direction (l : Line) : Vector :=
  Point.vectorFrom (end_ l) (begin l).

(** The 2D cross product of two vectors. *)
Definition cross (a b : Vector) : Q := vx a * vy b - vy a * vx b.

(** [p] is on the infinite line through [begin l] and [end_ l]: it has the
    parametric form [begin + t * (end - begin)]. *)
Definition onInfiniteLine (l : Line) (p : Point) : Prop :=
  exists t : Q, p =p= Point.plus (begin l) (Vector.times (direction l) t).

(** [b] is [a] scaled by [k]. *)
Definition scaled (k : Q) (a b : Vector) : Prop :=
  vx b == k * vx a /\ vy b == k * vy a.

(** ** Object identity

    [isOnLeftOf] compares its arguments with [===], which on objects is
    identity of references, not equality of coordinates.  An element of
    the array handed to [convexHull] is therefore a reference: the address
    of a [Point] object together with the (immutable) object it names. *)
Record PointRef : Type := mkRef { addr : nat; target : Point }.

(** [a === b] on two references to points. *)
Definition sameRef (a b : PointRef) : bool := Nat.eqb (addr a) (addr b).

(** References to freshly allocated, pairwise distinct objects, one per
    point of [ps], at consecutive addresses from [base]. *)
Fixpoint allocate (base : nat) (ps : list Point) : list PointRef :=
  match ps with
  | [] => []
  | p :: ps' => mkRef base p :: allocate (S base) ps'
  end.

(** ** Convex hull *)

Definition isOnLeftOf (p1 p2 p : PointRef) : bool :=
  if sameRef p1 p2 || sameRef p p1 || sameRef p p2 then false
  else
    let a := Point.vectorFrom (target p2) (target p1) in
    let b := Point.vectorFrom (target p) (target p1) in
    Qltb 0 (vx a * vy b - vx b * vy a).

(** The scan for the left-most point:
    [let l = 0; for (let i = 1; i < s.length; i++) if (s[i].x < s[l].x) l = i;] *)
Definition leftmost (s : list PointRef) : result nat :=
  forLoop
    (fun i l =>
       si <- index s i ;;
       sl <- index s l ;;
       Ok (if Qltb (x (target si)) (x (target sl)) then i else l))
    1 (length s - 1) 0%nat.

(** One turn of the gift wrap from [s[p]]:
    [let q = (p + 1) % s.length;
     for (let i = 0; i < s.length; i++) if (isOnLeftOf(s[p], s[q], s[i])) q = i;] *)
Definition wrapStep (s : list PointRef) (p : nat) : result nat :=
  forLoop
    (fun i q =>
       sp <- index s p ;;
       sq <- index s q ;;
       si <- index s i ;;
       Ok (if isOnLeftOf sp sq si then i else q))
    0 (length s) ((p + 1) mod length s)%nat.

(** [do { hull.push(s[p]); ...; p = q; } while (p !== l && --max > 0);]
    entered with the current values of [max], [p] and [hull].  The test
    [--max > 0] holds exactly when [max] is at least 2 before it. *)
Fixpoint wrap (s : list PointRef) (l : nat) (max : nat) (p : nat)
         (hull : list PointRef) : result (list PointRef) :=
  sp <- index s p ;;
  let hull := hull ++ [sp] in
  q <- wrapStep s p ;;
  if Nat.eqb q l then Ok hull
  else
    match max with
    | S (S _ as max') => wrap s l max' q hull
    | _ => Ok hull
    end.

Definition convexHull (s : list PointRef) : result (list PointRef) :=
  if Nat.ltb (length s) 3 then Throw ConvexHullNeedsThreePoints
  else
    l <- leftmost s ;;
    wrap s l (length s + 1) l [].

(** Vocabulary of the specification for the hull. *)

(** The vertex reached from [p] after [k] turns of the wrap. *)
Fixpoint wrapIter (s : list PointRef) (k : nat) (p : nat) : result nat :=
  match k with
  | O => Ok p
  | S k' => q <- wrapStep s p ;; wrapIter s k' q
  end.

(** The wrap started at [p] comes back to [l] after between 1 and [k]
    turns. *)
Fixpoint returnsWithin (s : list PointRef) (l : nat) (k : nat) (p : nat) : bool :=
  match k with
  | O => false
  | S k' =>
      match wrapStep s p with
      | Ok q => Nat.eqb q l || returnsWithin s l k' q
      | Throw _ => false
      end
  end.

(** The gift wrap of [s] returns to its starting point within [k]
    iterations. *)
Definition closesWithin (s : list PointRef) (k : nat) : bool :=
  match leftmost s with
  | Ok l => returnsWithin s l k l
  | Throw _ => false
  end.

(** The turn made at [v] when walking [u], [v], [w]: the cross product of
    the two successive edges.  With the y axis pointing down the screen a
    negative value is a counter-clockwise turn. *)
Definition turn (u v w : Point) : Q :=
  cross (Point.vectorFrom v u) (Point.vectorFrom w v).

(** The turns made at the successive vertices of a closed polygon. *)
Definition turns (poly : list Point) : list Q :=
  match poly with
  | u :: v :: rest =>
      List.map (fun t => turn (fst (fst t)) (snd (fst t)) (snd t))
               (combine (combine poly (v :: rest ++ [u])) (rest ++ [u; v]))
  | _ => []
  end.

(** The successive edges of a closed polygon. *)
Definition edges (poly : list Point) : list (Point * Point) :=
  match poly with
  | [] => []
  | v :: rest => combine poly (rest ++ [v])
  end.

(** [p] is strictly on the left of the directed edge [e]. *)
Definition strictlyLeft (e : Point * Point) (p : Point) : bool :=
  Qltb 0 (cross (Point.vectorFrom (snd e) (fst e)) (Point.vectorFrom p (fst e))).

(** [p] is inside or on the boundary of a convex polygon walked
    counter-clockwise on the screen: it is on the left of none of its
    edges. *)
Definition insideOrOn (poly : list Point) (p : Point) : bool :=
  forallb (fun e => negb (strictlyLeft e p)) (edges poly).

Definition isVertex (poly : list Point) (p : Point) : bool :=
  existsb (Peqb p) poly.

(** ** Box *)

Record Box : Type := mkBox { p1 : Point; p2 : Point; depth : Q }.

Inductive ControlPointType : Type :=
| VANISHING_POINT
| BOX_POINT_1
| BOX_POINT_2
| LIGHT
| LIGHT_DROP.

Definition ControlPointType_eqb (a b : ControlPointType) : bool :=
  match a, b with
  | VANISHING_POINT, VANISHING_POINT
  | BOX_POINT_1, BOX_POINT_1
  | BOX_POINT_2, BOX_POINT_2
  | LIGHT, LIGHT
  | LIGHT_DROP, LIGHT_DROP => true
  | _, _ => false
  end.

(** [class ControlPoint extends Point] adds no field. *)
Definition ControlPoint : Type := Point.

(** [new ControlPoint(p)], that is [super(p.x, p.y)]. *)
Definition newControlPoint (p : Point) : ControlPoint := mkPoint (x p) (y p).

(** A [Map<K,V>] with its entries in insertion order; a key occurs once. *)
Definition JsMap (K V : Type) : Type := list (K * V).

Definition mapMap {K V : Type} (map : JsMap K V) (f : K -> V -> V) : JsMap K V :=
  List.map (fun kv => (fst kv, f (fst kv) (snd kv))) map.

Definition mapReplace {V : Type} (map : JsMap ControlPointType V)
           (replaceKey : ControlPointType) (f : V -> V) : JsMap ControlPointType V :=
  mapMap map (fun k v => if ControlPointType_eqb k replaceKey then f v else v).

(** [map.get(k)]: [None] stands for [undefined]. *)
Fixpoint mapGet {V : Type} (map : JsMap ControlPointType V)
         (k : ControlPointType) : option V :=
  match map with
  | [] => None
  | (k', v) :: rest => if ControlPointType_eqb k' k then Some v else mapGet rest k
  end.

Module ControlPoint.
Definition RADIUS : Q := 10.

Definition isClickedOn (this : ControlPoint) (p : Point) : bool :=
  Sqrt_leb (Vector.length (Point.vectorFrom p this)) RADIUS.
End ControlPoint.

Record ControlPoints : Type := mkControlPoints {
  points : JsMap ControlPointType ControlPoint;
  selected : option ControlPointType;
  delta : option Vector
}.

Module ControlPoints.
Definition get (this : ControlPoints) (cpt : ControlPointType) : result ControlPoint :=
  match mapGet (points this) cpt with
  | None => Throw ControlPointTypeNotFound
  | Some cp => Ok cp
  end.

(** [for (const [cpt, cp] of this.points.entries())] with a [return] at
    the first entry that is clicked on. *)
Definition select (this : ControlPoints) (p : Point) : ControlPoints :=
  match List.find (fun kv => ControlPoint.isClickedOn (snd kv) p) (points this) with
  | Some (cpt, cp) =>
      mkControlPoints (points this) (Some cpt) (Some (Point.vectorFrom p cp))
  | None => mkControlPoints (points this) None None
  end.

Definition moveTo (this : ControlPoints) (p : Point) : ControlPoints :=
  match selected this, delta this with
  | Some sel, Some d =>
      let newPoint := newControlPoint (Point.minus p d) in
      let newMap := mapReplace (points this) sel (fun _ => newPoint) in
      let newMap :=
        if ControlPointType_eqb sel LIGHT
        then mapReplace newMap LIGHT_DROP
               (fun cp => newControlPoint (mkPoint (x newPoint) (y cp)))
        else newMap in
      let newMap :=
        if ControlPointType_eqb sel LIGHT_DROP
        then mapReplace newMap LIGHT
               (fun cp => newControlPoint (mkPoint (x newPoint) (y cp)))
        else newMap in
      mkControlPoints newMap (selected this) (delta this)
  | _, _ => this
  end.

Definition deselect (this : ControlPoints) : ControlPoints :=
  mkControlPoints (points this) None None.
End ControlPoints.

Record Config : Type := mkConfig {
  width : Q;
  height : Q;
  controlPoints : ControlPoints;
  vanishingPoint : Point;
  box : Box;
  light : Point;
  lightDrop : Point
}.

(** [new Config(width, height, controlPoints)] *)
Definition newConfig (width height : Q) (cps : ControlPoints) : result Config :=
  vp <- ControlPoints.get cps VANISHING_POINT ;;
  b1 <- ControlPoints.get cps BOX_POINT_1 ;;
  b2 <- ControlPoints.get cps BOX_POINT_2 ;;
  l <- ControlPoints.get cps LIGHT ;;
  ld <- ControlPoints.get cps LIGHT_DROP ;;
  Ok (mkConfig width height cps vp (mkBox b1 b2 50) l ld).

(** The three arrays filled by the loop of [Box.draw]. *)
Record ShadowArrays : Type := mkShadowArrays {
  lightLines : list Line;
  lightDropLines : list Line;
  shadow : list Point
}.

Module Box.
Definition frontPoints (this : Box) : list Point :=
  [ p1 this;
    mkPoint (x (p1 this)) (y (p2 this));
    p2 this;
    mkPoint (x (p2 this)) (y (p1 this)) ].

Definition backPoints (this : Box) (config : Config) : list Point :=
  List.map
    (fun p => Point.plus p
                (Vector.times (Point.vectorFrom (vanishingPoint config) p) (3 # 10)))
    (frontPoints this).

Definition topPoints (this : Box) (config : Config) : result (list Point) :=
  f1 <- index (frontPoints this) 1 ;;
  b1 <- index (backPoints this config) 1 ;;
  b2 <- index (backPoints this config) 2 ;;
  f2 <- index (frontPoints this) 2 ;;
  Ok [f1; b1; b2; f2].

Definition bottomPoints (this : Box) (config : Config) : result (list Point) :=
  f0 <- index (frontPoints this) 0 ;;
  b0 <- index (backPoints this config) 0 ;;
  b3 <- index (backPoints this config) 3 ;;
  f3 <- index (frontPoints this) 3 ;;
  Ok [f0; b0; b3; f3].

(** The body of [for (let i = 0; i < 4; i++)]. *)
Definition shadowBody (config : Config) (topPoints bottomPoints : list Point)
           (i : nat) (st : ShadowArrays) : result ShadowArrays :=
  top <- index topPoints i ;;
  bottom <- index bottomPoints i ;;
  let lightLine := mkLine (light config) top true false in
  let lightDropLine := mkLine (lightDrop config) bottom true false in
  v <- Line.intersectWith lightLine lightDropLine ;;
  Ok (mkShadowArrays (lightLines st ++ [lightLine])
                     (lightDropLines st ++ [lightDropLine])
                     (shadow st ++ [v])).

Definition shadowLoop (this : Box) (config : Config) : result ShadowArrays :=
  top <- topPoints this config ;;
  bottom <- bottomPoints this config ;;
  forLoop (shadowBody config top bottom) 0 4 (mkShadowArrays [] [] []).

(** [Box.draw] up to and including its first call of the renderer,
    [rc.polygon(fullShadow.map(p => [p.x, p.y]), ...)]: the value is the
    vertex list handed to [rc.polygon].  The eight elements of
    [[... shadow, ... bottomPoints]] are eight distinct objects: the
    receiver's [p1], and seven points made by [new Point] or [plus]. *)
Definition draw (this : Box) (config : Config) : result (list (Q * Q)) :=
  bottom <- bottomPoints this config ;;
  st <- shadowLoop this config ;;
  fullShadow <- convexHull (allocate 0 (shadow st ++ bottom)) ;;
  Ok (List.map (fun p => (x (target p), y (target p))) fullShadow).
End Box.

(** ** Vocabulary of the specification for the box and the control points *)

(** [s[l]] has the least x of [s[0..i-1]], and is the first to have it. *)
Definition leftmostUpTo (s : list PointRef) (i l : nat) : Prop :=
  (l < i)%nat
  /\ exists pl, nth_error s l = Some pl
       /\ (forall j pj, (j < i)%nat -> nth_error s j = Some pj ->
                        x (target pl) <= x (target pj))
       /\ (forall j pj, (j < l)%nat -> nth_error s j = Some pj ->
                        x (target pl) < x (target pj)).

(** The partner of a control point under the light / light-drop
    coupling. *)
Definition coupled (sel k : ControlPointType) : Prop :=
  (sel = LIGHT /\ k = LIGHT_DROP) \/ (sel = LIGHT_DROP /\ k = LIGHT).

(** [p] offset by [f * (vp - p)]: pulled the fraction [f] of the way
    toward [vp]. *)
Definition pulledToward (f : Q) (vp p : Point) : Point :=
  mkPoint (x p + f * (x vp - x p)) (y p + f * (y vp - y p)).

(** The intersection of the line from [l] through [top] with the line
    from [d] through [bottom], both hard-stopped at their begin and open
    beyond their end. *)
Definition shadowVertex (l d top bottom : Point) : result Point :=
  Line.intersectWith (mkLine l top true false) (mkLine d bottom true false).

(** The scene of the concrete scenario of the specification. *)
Definition scenarioPoints : JsMap ControlPointType ControlPoint :=
  [ (VANISHING_POINT, mkPoint 100 100);
    (BOX_POINT_1, mkPoint 50 150);
    (BOX_POINT_2, mkPoint 150 200);
    (LIGHT, mkPoint 20 50);
    (LIGHT_DROP, mkPoint 20 180) ].

(** A scene whose four shadow vertices are on one horizontal line: the
    light at (9,3) above its drop at (9,9), the box from (0,8) to (11,0),
    the vanishing point at (5,12). *)
Definition collinearShadowScene : Config :=
  mkConfig 800 600
    (mkControlPoints
       [ (VANISHING_POINT, mkPoint 5 12); (BOX_POINT_1, mkPoint 0 8);
         (BOX_POINT_2, mkPoint 11 0); (LIGHT, mkPoint 9 3);
         (LIGHT_DROP, mkPoint 9 9) ]
       None None)
    (mkPoint 5 12) (mkBox (mkPoint 0 8) (mkPoint 11 0) 50)
    (mkPoint 9 3) (mkPoint 9 9).

(** Two vertex lists with the same coordinates. *)
Definition sameCoords (a b : list (Q * Q)) : Prop :=
  Forall2 (fun c c' => fst c == fst c' /\ snd c == snd c') a b.

(** ** The earlier [ControlPoints] of [src/main.ts] *)

Module ControlPoints0.
(** [private static replace(points, newCpt, newPoint)] *)
Definition replace (points : JsMap ControlPointType ControlPoint)
           (newCpt : ControlPointType) (newPoint : ControlPoint)
  : JsMap ControlPointType ControlPoint :=
  List.map (fun kv => (fst kv, if ControlPointType_eqb (fst kv) newCpt
                               then newPoint else snd kv)) points.

(** [newMap.get(cpt) as ControlPoint] followed by the read of [.y]: a
    missing key gives [undefined], and the read throws. *)
Definition getAs (map : JsMap ControlPointType ControlPoint)
           (cpt : ControlPointType) : result ControlPoint :=
  match mapGet map cpt with
  | Some cp => Ok cp
  | None => Throw TypeErrorUndefined
  end.

Definition moveTo (this : ControlPoints) (p : Point) : result ControlPoints :=
  match selected this, delta this with
  | Some sel, Some d =>
      let newPoint := newControlPoint (Point.minus p d) in
      let newMap := replace (points this) sel newPoint in
      newMap <-
        (if ControlPointType_eqb sel LIGHT
         then oldPoint <- getAs newMap LIGHT_DROP ;;
              Ok (replace newMap LIGHT_DROP
                    (newControlPoint (mkPoint (x newPoint) (y oldPoint))))
         else Ok newMap) ;;
      newMap <-
        (if ControlPointType_eqb sel LIGHT_DROP
         then oldPoint <- getAs newMap LIGHT ;;
              Ok (replace newMap LIGHT
                    (newControlPoint (mkPoint (x newPoint) (y oldPoint))))
         else Ok newMap) ;;
      Ok (mkControlPoints newMap (selected this) (delta this))
  | _, _ => Ok this
  end.
End ControlPoints0.

(** ** The event handlers of [main] *)

(** The state that the handlers of [main] share: the variables [width],
    [height] and [config]. *)
Record App : Type := mkApp { appWidth : Q; appHeight : Q; appConfig : Config }.

(** The events listened to; a mouse event carries [new Point(e.x, e.y)],
    a resize the new [window.innerWidth] and [window.innerHeight]. *)
Inductive Event : Type :=
| MouseDown (p : Point)
| MouseUp
| MouseMove (p : Point)
| Resize (innerWidth innerHeight : Q).

(** The control points that [main] starts from. *)
Definition initialControlPoints (width height : Q) : ControlPoints :=
  mkControlPoints
    [ (VANISHING_POINT, newControlPoint (mkPoint (width / 2) (height / 2)));
      (BOX_POINT_1, newControlPoint (mkPoint (width / 4) (height / 2 + 300)));
      (BOX_POINT_2, newControlPoint (mkPoint (width / 4 + 300) (height / 2 + 50)));
      (LIGHT, newControlPoint (mkPoint (width / 5) (height / 4)));
      (LIGHT_DROP, newControlPoint (mkPoint (width / 5) (height * (60 # 100)))) ]
    None None.

(** [Config.draw]: the background, the horizon and the control points
    are drawn by calls of the renderer, which are taken to return; what
    can throw is [this.box.draw(g, rc, this)], in the part of [Box.draw]
    that comes before its own first call of the renderer. *)
Module Config.
Definition draw (this : Config) : result unit :=
  _ <- Box.draw (box this) this ;; Ok tt.
End Config.

(** [main] up to the registration of the listeners.  The page is taken
    to have its canvas; [contextIsNull] says whether
    [canvas.getContext("2d")] gave [null].  [Ok] is the state that the
    listeners start from; when the first [config.draw] throws, [main] is
    left before any listener is registered. *)
Definition main (innerWidth innerHeight : Q) (contextIsNull : bool) : result App :=
  let width := innerWidth in
  let height := innerHeight in
  if contextIsNull then Throw ContextIsNull
  else
    let controlPoints := initialControlPoints width height in
    config <- newConfig width height controlPoints ;;
    _ <- Config.draw config ;;
    Ok (mkApp width height config).

(** The part of a listener that ends with the assignment of [config]:
    [Ok app'] is the state that the listener leaves, whether the
    [config.draw] that follows returns or throws; [Throw] is an
    exception of [new Config], which comes before the assignment.  The
    listener in full is [listener] below. *)
Definition handle (app : App) (e : Event) : result App :=
  match e with
  | MouseDown p =>
      let cps := ControlPoints.select (controlPoints (appConfig app)) p in
      config <- newConfig (appWidth app) (appHeight app) cps ;;
      Ok (mkApp (appWidth app) (appHeight app) config)
  | MouseUp =>
      let cps := ControlPoints.deselect (controlPoints (appConfig app)) in
      config <- newConfig (appWidth app) (appHeight app) cps ;;
      Ok (mkApp (appWidth app) (appHeight app) config)
  | MouseMove p =>
      match selected (controlPoints (appConfig app)) with
      | Some _ =>
          let cps := ControlPoints.moveTo (controlPoints (appConfig app)) p in
          config <- newConfig (appWidth app) (appHeight app) cps ;;
          Ok (mkApp (appWidth app) (appHeight app) config)
      | None => Ok app
      end
  | Resize innerWidth innerHeight =>
      config <- newConfig innerWidth innerHeight (controlPoints (appConfig app)) ;;
      Ok (mkApp innerWidth innerHeight config)
  end.

(** The assignments of the listeners of a list of events, in turn, up to
    the first exception of [new Config]. *)
Fixpoint handleAll (app : App) (events : list Event) : result App :=
  match events with
  | [] => Ok app
  | e :: rest => app' <- handle app e ;; handleAll app' rest
  end.

(** What follows the assignment in a listener: [config.draw(g, rc)] on
    the state just assigned.  An exception of [new Config] leaves the
    variables as they were. *)
Definition assignAndDraw (app : App) (assigned : result App) : App * result unit :=
  match assigned with
  | Ok app' => (app', Config.draw (appConfig app'))
  | Throw err => (app, Throw err)
  end.

(** A listener in full: the state it leaves, and whether it returns or
    throws.  The [mousemove] listener does nothing, and draws nothing,
    while nothing is selected. *)
Definition listener (app : App) (e : Event) : App * result unit :=
  match e with
  | MouseMove _ =>
      match selected (controlPoints (appConfig app)) with
      | Some _ => assignAndDraw app (handle app e)
      | None => (app, Ok tt)
      end
  | _ => assignAndDraw app (handle app e)
  end.

(** The state after the listeners of a list of events have run, one
    after the other; an exception that leaves a listener does not stop
    the next event from being listened to. *)
Definition runListeners (app : App) (events : list Event) : App :=
  fold_left (fun a e => fst (listener a e)) events app.

(** ** Vocabulary for the further properties *)

(** Equal addresses name the same object. *)
Definition consistentRefs (a b : PointRef) : Prop :=
  sameRef a b = true -> target a = target b.

(** Every kind of control point is in the map. *)
Definition totalMap (m : JsMap ControlPointType ControlPoint) : Prop :=
  forall k : ControlPointType, mapGet m k <> None.

(** [selected] and [delta] are both defined or both undefined. *)
Definition bothOrNeither (cps : ControlPoints) : Prop :=
  selected cps = None <-> delta cps = None.

(** The light is directly above its drop. *)
Definition lightAboveDrop (m : JsMap ControlPointType ControlPoint) : Prop :=
  exists l d, mapGet m LIGHT = Some l /\ mapGet m LIGHT_DROP = Some d /\ x l == x d.

(** The state of the application is what [new Config] makes of its
    control points, all five being there. *)
Definition wellFormed (app : App) : Prop :=
  newConfig (appWidth app) (appHeight app) (controlPoints (appConfig app))
  = Ok (appConfig app)
  /\ totalMap (points (controlPoints (appConfig app)))
  /\ bothOrNeither (controlPoints (appConfig app)).

(** * Properties *)

(** ** Numbers *)

Lemma Qltb_lt (a b : Q) : Qltb a b = true <-> a < b.
Proof.
  unfold Qltb. rewrite Qlt_alt.
  destruct (a ?= b); split; intro H; congruence.
Qed.

Lemma Qltb_ge (a b : Q) : Qltb a b = false <-> b <= a.
Proof.
  split; intro H.
  - apply Qnot_lt_le. intro Hlt. apply Qltb_lt in Hlt. congruence.
  - destruct (Qltb a b) eqn:E; [|reflexivity].
    apply Qltb_lt in E. exfalso. apply (Qlt_not_le _ _ E H).
Qed.

Lemma Qeq_bool_false (a b : Q) : Qeq_bool a b = false <-> ~ a == b.
Proof.
  split.
  - intros H Heq. apply Qeq_bool_iff in Heq. congruence.
  - intro H. destruct (Qeq_bool a b) eqn:E; [|reflexivity].
    apply Qeq_bool_iff in E. contradiction.
Qed.

(** ** Line intersection *)

Section Intersection.
Variables this other : Line.

(** The denominator of [intersectWith] is the cross product of the two
    directions, negated. *)
Lemma denom_cross :
  vy (direction this) * vx (direction other)
  - vx (direction this) * vy (direction other)
  == - cross (direction this) (direction other).
Proof. unfold cross. ring. Qed.

Lemma intersectWith_throws :
  cross (direction this) (direction other) == 0 ->
  Line.intersectWith this other = Throw LinesAreParallel.
Proof.
  intro H. unfold Line.intersectWith.
  fold (direction this) (direction other).
  replace (Qeq_bool _ 0) with true; [reflexivity|].
  symmetry. apply Qeq_bool_iff. rewrite denom_cross, H. reflexivity.
Qed.

Lemma intersectWith_returns :
  ~ cross (direction this) (direction other) == 0 ->
  Line.intersectWith this other =
  Ok (Point.plus (begin this)
        (Vector.times (direction this)
           (((x (begin this) - x (begin other)) * vy (direction other)
             - (y (begin this) - y (begin other)) * vx (direction other))
            / (vy (direction this) * vx (direction other)
               - vx (direction this) * vy (direction other))))).
Proof.
  intro H. unfold Line.intersectWith.
  fold (direction this) (direction other).
  replace (Qeq_bool _ 0) with false; [reflexivity|].
  symmetry. apply Qeq_bool_false. rewrite denom_cross.
  intro H0. apply H.
  rewrite <- (Qopp_involutive (cross _ _)), H0. reflexivity.
Qed.

Lemma intersectWith_throw_iff :
  Line.intersectWith this other = Throw LinesAreParallel
  <-> cross (direction this) (direction other) == 0.
Proof.
  split; [|apply intersectWith_throws].
  intro H.
  destruct (Qeq_dec (cross (direction this) (direction other)) 0) as [E|E];
    [exact E|].
  rewrite (intersectWith_returns E) in H. discriminate.
Qed.
End Intersection.

(** The stop flags are never read by [intersectWith]. *)
Lemma intersectWith_flags (a b : Line) (sb se sb' se' : bool) :
  Line.intersectWith (mkLine (begin a) (end_ a) sb se)
                     (mkLine (begin b) (end_ b) sb' se')
  = Line.intersectWith a b.
Proof. reflexivity. Qed.

Lemma scaled_cross (k : Q) (a b : Vector) : scaled k a b -> cross a b == 0.
Proof. intros [Hx Hy]. unfold cross. rewrite Hx, Hy. ring. Qed.

Lemma cross_swap (a b : Vector) : cross a b == 0 -> cross b a == 0.
Proof. unfold cross. intro H. lra. Qed.

(** C3: [intersectWith] fails with the parallel-lines error exactly when
    the cross product of the two direction vectors is zero; it raises no
    other error; directions that are identical or proportional (one is
    the other scaled by some [k]) always raise it; a nonzero cross
    product always gives a point. *)
Theorem intersectWith_parallel_iff (this other : Line) :
  (Line.intersectWith this other = Throw LinesAreParallel
   <-> cross (direction this) (direction other) == 0)
  /\ (forall e, Line.intersectWith this other = Throw e -> e = LinesAreParallel)
  /\ (direction this = direction other ->
      Line.intersectWith this other = Throw LinesAreParallel)
  /\ (forall k, scaled k (direction this) (direction other)
                \/ scaled k (direction other) (direction this) ->
                Line.intersectWith this other = Throw LinesAreParallel)
  /\ (~ cross (direction this) (direction other) == 0 ->
      exists p, Line.intersectWith this other = Ok p).
Proof.
  repeat split.
  - apply intersectWith_throw_iff.
  - apply intersectWith_throw_iff.
  - intros e He.
    destruct (Qeq_dec (cross (direction this) (direction other)) 0) as [E|E].
    + rewrite (intersectWith_throws _ _ E) in He. congruence.
    + rewrite (intersectWith_returns _ _ E) in He. discriminate.
  - intro Hd. apply intersectWith_throws. rewrite Hd. unfold cross. ring.
  - intros k [H|H]; apply intersectWith_throws.
    + exact (scaled_cross k _ _ H).
    + apply cross_swap. exact (scaled_cross k _ _ H).
  - intro H. eexists. apply (intersectWith_returns _ _ H).
Qed.

(** A point returned by [intersectWith] has the parametric form of both
    lines. *)
Lemma intersectWith_Ok_on_lines (this other : Line) (p : Point) :
  Line.intersectWith this other = Ok p ->
  onInfiniteLine this p /\ onInfiniteLine other p.
Proof.
  intro Hp.
  destruct (Qeq_dec (cross (direction this) (direction other)) 0) as [E|E].
  { rewrite (intersectWith_throws _ _ E) in Hp. discriminate. }
  rewrite (intersectWith_returns _ _ E) in Hp. injection Hp as <-.
  assert (Hd : ~ vy (direction this) * vx (direction other)
                 - vx (direction this) * vy (direction other) == 0).
  { rewrite denom_cross. intro H0. apply E.
    rewrite <- (Qopp_involutive (cross _ _)), H0. reflexivity. }
  split.
  - eexists. split; reflexivity.
  - exists (((x (begin this) - x (begin other)) * vy (direction this)
             - (y (begin this) - y (begin other)) * vx (direction this))
            / (vy (direction this) * vx (direction other)
               - vx (direction this) * vy (direction other))).
    revert Hd. unfold direction, Point.vectorFrom.
    destruct this as [[ax ay] [bx b_y] ? ?], other as [[cx cy] [dx dy] ? ?].
    unfold Peq; simpl. intro Hd. split; field; exact Hd.
Qed.

(** C4: when the cross product of the directions is not zero, the point
    returned by [intersectWith] has the parametric form of both infinite
    lines, and it is the same whatever the stop flags of the two lines
    are. *)
Theorem intersectWith_on_both_lines (this other : Line) :
  ~ cross (direction this) (direction other) == 0 ->
  exists p : Point,
    Line.intersectWith this other = Ok p
    /\ onInfiniteLine this p
    /\ onInfiniteLine other p
    /\ forall sb se sb' se' : bool,
        Line.intersectWith (mkLine (begin this) (end_ this) sb se)
                           (mkLine (begin other) (end_ other) sb' se') = Ok p.
Proof.
  intro H. eexists. split; [apply (intersectWith_returns _ _ H)|].
  destruct (intersectWith_Ok_on_lines _ _ _ (intersectWith_returns _ _ H))
    as [H1 H2].
  split; [exact H1|]. split; [exact H2|].
  intros. rewrite intersectWith_flags. apply (intersectWith_returns _ _ H).
Qed.

Lemma intersectWith_on_both_lines_witness :
  exists p : Point,
    Line.intersectWith (mkLine (mkPoint 0 0) (mkPoint 2 2) true false)
                       (mkLine (mkPoint 0 4) (mkPoint 4 0) true false) = Ok p
    /\ p =p= mkPoint 2 2.
Proof.
  destruct (@intersectWith_on_both_lines
              (mkLine (mkPoint 0 0) (mkPoint 2 2) true false)
              (mkLine (mkPoint 0 4) (mkPoint 4 0) true false))
    as [p [Hp _]].
  - vm_compute. discriminate.
  - exists p. split; [exact Hp|].
    vm_compute in Hp. injection Hp as <-. split; reflexivity.
Defined.

(** C10: a line whose begin and end have the same coordinates makes
    [intersectWith] throw the parallel-lines error, whichever side of the
    call it is on and whatever the other line is. *)
Theorem intersectWith_zero_length (l other : Line) :
  begin l =p= end_ l ->
  Line.intersectWith l other = Throw LinesAreParallel
  /\ Line.intersectWith other l = Throw LinesAreParallel.
Proof.
  intros [Hx Hy].
  split; apply intersectWith_throws; unfold cross, direction, Point.vectorFrom;
    simpl; rewrite Hx, Hy; ring.
Qed.

Lemma intersectWith_zero_length_witness :
  Line.intersectWith (mkLine (mkPoint 1 2) (mkPoint 1 2) true false)
                     (mkLine (mkPoint 0 0) (mkPoint 3 5) true false)
  = Throw LinesAreParallel
  /\ Line.intersectWith (mkLine (mkPoint 0 0) (mkPoint 3 5) true false)
                        (mkLine (mkPoint 1 2) (mkPoint 1 2) true false)
     = Throw LinesAreParallel.
Proof.
  apply (@intersectWith_zero_length
           (mkLine (mkPoint 1 2) (mkPoint 1 2) true false)
           (mkLine (mkPoint 0 0) (mkPoint 3 5) true false)).
  split; reflexivity.
Defined.

(** ** Control points *)

Lemma ControlPointType_eqb_eq (a b : ControlPointType) :
  ControlPointType_eqb a b = true <-> a = b.
Proof. destruct a, b; simpl; split; intro H; congruence. Qed.

Lemma ControlPointType_eqb_refl (a : ControlPointType) :
  ControlPointType_eqb a a = true.
Proof. destruct a; reflexivity. Qed.

Lemma ControlPointType_eqb_neq (a b : ControlPointType) :
  a <> b -> ControlPointType_eqb a b = false.
Proof.
  intro H. destruct (ControlPointType_eqb a b) eqn:E; [|reflexivity].
  apply ControlPointType_eqb_eq in E. contradiction.
Qed.

Section MapLemmas.
Context {V : Type}.
Implicit Types (m : JsMap ControlPointType V) (k : ControlPointType).

Lemma mapGet_mapMap m (f : ControlPointType -> V -> V) k :
  mapGet (mapMap m f) k = option_map (f k) (mapGet m k).
Proof.
  induction m as [|[k' v] m IH]; simpl; [reflexivity|].
  destruct (ControlPointType_eqb k' k) eqn:E; [|exact IH].
  apply ControlPointType_eqb_eq in E. subst. reflexivity.
Qed.

Lemma mapGet_mapReplace_same m k (f : V -> V) :
  mapGet (mapReplace m k f) k = option_map f (mapGet m k).
Proof.
  unfold mapReplace. rewrite mapGet_mapMap, ControlPointType_eqb_refl.
  reflexivity.
Qed.

Lemma mapGet_mapReplace_other m k k' (f : V -> V) :
  k' <> k -> mapGet (mapReplace m k f) k' = mapGet m k'.
Proof.
  intro H. unfold mapReplace.
  rewrite mapGet_mapMap, (ControlPointType_eqb_neq _ _ H).
  destruct (mapGet m k'); reflexivity.
Qed.

Lemma keys_mapReplace m k (f : V -> V) :
  List.map fst (mapReplace m k f) = List.map fst m.
Proof.
  unfold mapReplace, mapMap. rewrite List.map_map. reflexivity.
Qed.
End MapLemmas.

(** C2: in a dragging state whose selected kind is LIGHT or LIGHT_DROP
    (both control points being in the map), the state returned by
    [moveTo] has both points, with the same x-coordinate, and the partner
    of the selected one keeps the y-coordinate it had. *)
Theorem moveTo_coupling (this : ControlPoints) (p : Point)
        (sel : ControlPointType) (d : Vector) (l0 ld0 : ControlPoint) :
  selected this = Some sel ->
  delta this = Some d ->
  sel = LIGHT \/ sel = LIGHT_DROP ->
  ControlPoints.get this LIGHT = Ok l0 ->
  ControlPoints.get this LIGHT_DROP = Ok ld0 ->
  exists l1 ld1 : ControlPoint,
    ControlPoints.get (ControlPoints.moveTo this p) LIGHT = Ok l1
    /\ ControlPoints.get (ControlPoints.moveTo this p) LIGHT_DROP = Ok ld1
    /\ x l1 = x ld1
    /\ (sel = LIGHT -> y ld1 = y ld0)
    /\ (sel = LIGHT_DROP -> y l1 = y l0).
Proof.
  intros Hsel Hd Hkind Hl Hld.
  unfold ControlPoints.get in *.
  destruct (mapGet (points this) LIGHT) as [l|] eqn:El; [|discriminate].
  destruct (mapGet (points this) LIGHT_DROP) as [ld|] eqn:Eld; [|discriminate].
  injection Hl as <-. injection Hld as <-.
  unfold ControlPoints.moveTo. rewrite Hsel, Hd.
  destruct Hkind as [-> | ->]; simpl points;
    cbn [ControlPointType_eqb];
    rewrite ?mapGet_mapReplace_same,
            ?(@mapGet_mapReplace_other _ _ LIGHT LIGHT_DROP),
            ?(@mapGet_mapReplace_other _ _ LIGHT_DROP LIGHT),
            ?mapGet_mapReplace_same, ?El, ?Eld by discriminate;
    simpl; do 2 eexists; repeat split; try reflexivity; intro; discriminate.
Qed.

Lemma moveTo_coupling_witness :
  exists l1 ld1 : ControlPoint,
    ControlPoints.get
      (ControlPoints.moveTo
         (mkControlPoints
            [ (VANISHING_POINT, mkPoint 100 100); (BOX_POINT_1, mkPoint 50 150);
              (BOX_POINT_2, mkPoint 150 200); (LIGHT, mkPoint 20 50);
              (LIGHT_DROP, mkPoint 20 180) ]
            (Some LIGHT) (Some (mkVector 0 0)))
         (mkPoint 40 50)) LIGHT = Ok l1
    /\ ControlPoints.get
         (ControlPoints.moveTo
            (mkControlPoints
               [ (VANISHING_POINT, mkPoint 100 100); (BOX_POINT_1, mkPoint 50 150);
                 (BOX_POINT_2, mkPoint 150 200); (LIGHT, mkPoint 20 50);
                 (LIGHT_DROP, mkPoint 20 180) ]
               (Some LIGHT) (Some (mkVector 0 0)))
            (mkPoint 40 50)) LIGHT_DROP = Ok ld1
    /\ x l1 = x ld1
    /\ (LIGHT = LIGHT -> y ld1 = y (mkPoint 20 180))
    /\ (LIGHT = LIGHT_DROP -> y l1 = y (mkPoint 20 50)).
Proof.
  apply (@moveTo_coupling _ (mkPoint 40 50) LIGHT (mkVector 0 0));
    first [reflexivity | left; reflexivity].
Defined.

(** C9: in a dragging state whose selected control point is in the map,
    [moveTo p] puts the selected control point at [p - delta], that is at
    [(p.x - delta.x, p.y - delta.y)], keeps the selected kind and the
    delta, keeps the keys of the map and their order, and keeps the
    position of every control point that is neither the selected one nor
    its light / light-drop partner. *)
Theorem moveTo_frame (this : ControlPoints) (p : Point)
        (sel : ControlPointType) (d : Vector) (cp0 : ControlPoint) :
  selected this = Some sel ->
  delta this = Some d ->
  mapGet (points this) sel = Some cp0 ->
  mapGet (points (ControlPoints.moveTo this p)) sel
  = Some (mkPoint (x p - vx d) (y p - vy d))
  /\ selected (ControlPoints.moveTo this p) = Some sel
  /\ delta (ControlPoints.moveTo this p) = Some d
  /\ List.map fst (points (ControlPoints.moveTo this p)) = List.map fst (points this)
  /\ forall k : ControlPointType,
      k <> sel -> ~ coupled sel k ->
      mapGet (points (ControlPoints.moveTo this p)) k = mapGet (points this) k.
Proof.
  intros Hsel Hd Hcp.
  unfold ControlPoints.moveTo. rewrite Hsel, Hd. simpl.
  repeat split.
  - destruct sel; cbn [ControlPointType_eqb];
      rewrite ?(@mapGet_mapReplace_other _ _ LIGHT LIGHT_DROP),
              ?(@mapGet_mapReplace_other _ _ LIGHT_DROP LIGHT) by discriminate;
      rewrite mapGet_mapReplace_same, Hcp; reflexivity.
  - destruct sel; cbn [ControlPointType_eqb];
      rewrite ?keys_mapReplace; reflexivity.
  - intros k Hk Hc.
    assert (Hbase : mapGet (mapReplace (points this) sel
                                       (fun _ => newControlPoint (Point.minus p d))) k
                    = mapGet (points this) k)
      by (apply mapGet_mapReplace_other; exact Hk).
    destruct sel; cbn [ControlPointType_eqb]; try exact Hbase.
    + rewrite mapGet_mapReplace_other; [exact Hbase|].
      intros ->. apply Hc. left. split; reflexivity.
    + rewrite mapGet_mapReplace_other; [exact Hbase|].
      intros ->. apply Hc. right. split; reflexivity.
Qed.

Lemma moveTo_frame_witness :
  let this :=
    mkControlPoints
      [ (VANISHING_POINT, mkPoint 100 100); (BOX_POINT_1, mkPoint 50 150);
        (BOX_POINT_2, mkPoint 150 200); (LIGHT, mkPoint 20 50);
        (LIGHT_DROP, mkPoint 20 180) ]
      (Some VANISHING_POINT) (Some (mkVector 3 (-4))) in
  mapGet (points (ControlPoints.moveTo this (mkPoint 110 100))) VANISHING_POINT
  = Some (mkPoint 107 104)
  /\ selected (ControlPoints.moveTo this (mkPoint 110 100)) = Some VANISHING_POINT
  /\ delta (ControlPoints.moveTo this (mkPoint 110 100)) = Some (mkVector 3 (-4))
  /\ List.map fst (points (ControlPoints.moveTo this (mkPoint 110 100)))
     = List.map fst (points this)
  /\ forall k : ControlPointType,
      k <> VANISHING_POINT -> ~ coupled VANISHING_POINT k ->
      mapGet (points (ControlPoints.moveTo this (mkPoint 110 100))) k
      = mapGet (points this) k.
Proof.
  intro this.
  apply (@moveTo_frame this (mkPoint 110 100) VANISHING_POINT (mkVector 3 (-4))
                       (mkPoint 100 100)); reflexivity.
Defined.

(** ** Loops and array reads *)

Lemma index_Ok {A : Type} (s : list A) (i : nat) :
  (i < length s)%nat -> exists a, index s i = Ok a /\ nth_error s i = Some a.
Proof.
  intro H. unfold index.
  destruct (nth_error s i) as [a|] eqn:E.
  - exists a. split; reflexivity.
  - apply nth_error_None in E. lia.
Qed.

Lemma index_Some {A : Type} (s : list A) (i : nat) (a : A) :
  nth_error s i = Some a -> index s i = Ok a.
Proof. intro H. unfold index. rewrite H. reflexivity. Qed.

(** An invariant kept by every iteration that the loop runs holds when
    the loop ends, and the loop does end without throwing. *)
Lemma forLoop_invariant {St : Type} (body : nat -> St -> result St)
      (P : nat -> St -> Prop) (count : nat) :
  forall (a : nat) (st : St),
    P a st ->
    (forall i st0, (a <= i < a + count)%nat -> P i st0 ->
                   exists st1, body i st0 = Ok st1 /\ P (S i) st1) ->
    exists st', forLoop body a count st = Ok st' /\ P (a + count)%nat st'.
Proof.
  induction count as [|c IH]; intros a st HP Hstep.
  - exists st. rewrite Nat.add_0_r. split; [reflexivity|exact HP].
  - destruct (Hstep a st) as [st1 [Hb HP1]]; [lia|exact HP|].
    destruct (IH (S a) st1 HP1) as [st' [Hl HP']].
    + intros i st0 Hi. apply Hstep. lia.
    + exists st'. simpl. rewrite Hb. simpl.
      split; [exact Hl|]. replace (a + S c)%nat with (S a + c)%nat by lia.
      exact HP'.
Qed.

(** ** Convex hull: the starting point *)

Lemma leftmost_spec (s : list PointRef) :
  (1 <= length s)%nat ->
  exists l, leftmost s = Ok l /\ leftmostUpTo s (length s) l.
Proof.
  intro Hn. unfold leftmost.
  destruct (@forLoop_invariant nat
              (fun i l =>
                 si <- index s i ;;
                 sl <- index s l ;;
                 Ok (if Qltb (x (target si)) (x (target sl)) then i else l))
              (fun i l => (i <= length s)%nat /\ leftmostUpTo s i l)
              (length s - 1) 1%nat 0%nat) as [l [Hl [_ HP]]].
  - split; [lia|]. split; [lia|].
    destruct (index_Ok s 0) as [p0 [_ H0]]; [lia|].
    exists p0. split; [exact H0|]. split.
    + intros j pj Hj Hpj. assert (j = 0)%nat by lia. subst.
      rewrite H0 in Hpj. injection Hpj as <-. apply Qle_refl.
    + intros j pj Hj. lia.
  - intros i l Hi [_ [Hli [pl [Hpl [Hmin Hfirst]]]]].
    destruct (index_Ok s i) as [si [Hsi Hsi']]; [lia|].
    rewrite Hsi, (index_Some _ _ _ Hpl). simpl.
    destruct (Qltb (x (target si)) (x (target pl))) eqn:E.
    + apply Qltb_lt in E.
      exists i. split; [reflexivity|]. split; [lia|]. split; [lia|].
      exists si. split; [exact Hsi'|]. split.
      * intros j pj Hj Hpj.
        destruct (Nat.eq_dec j i) as [->|Hne].
        -- rewrite Hsi' in Hpj. injection Hpj as <-. apply Qle_refl.
        -- assert (Hj' : (j < i)%nat) by lia.
           pose proof (Hmin j pj Hj' Hpj). lra.
      * intros j pj Hj Hpj. pose proof (Hmin j pj Hj Hpj). lra.
    + apply Qltb_ge in E.
      exists l. split; [reflexivity|]. split; [lia|]. split; [lia|].
      exists pl. split; [exact Hpl|]. split.
      * intros j pj Hj Hpj.
        destruct (Nat.eq_dec j i) as [->|Hne].
        -- rewrite Hsi' in Hpj. injection Hpj as <-. exact E.
        -- apply (Hmin j pj); [lia|exact Hpj].
      * exact Hfirst.
  - exists l. split; [exact Hl|].
    replace (1 + (length s - 1))%nat with (length s) in HP by lia. exact HP.
Qed.

(** ** Convex hull: the wrap *)

Lemma wrapStep_Ok (s : list PointRef) (p : nat) :
  (p < length s)%nat -> exists q, wrapStep s p = Ok q /\ (q < length s)%nat.
Proof.
  intro Hp. unfold wrapStep.
  destruct (@forLoop_invariant nat
              (fun i q =>
                 sp <- index s p ;;
                 sq <- index s q ;;
                 si <- index s i ;;
                 Ok (if isOnLeftOf sp sq si then i else q))
              (fun _ q => (q < length s)%nat)
              (length s) 0%nat ((p + 1) mod length s)%nat) as [q [Hq HP]].
  - apply Nat.mod_upper_bound. lia.
  - intros i q Hi Hq.
    destruct (index_Ok s p Hp) as [sp [-> _]].
    destruct (index_Ok s q Hq) as [sq [-> _]].
    destruct (index_Ok s i) as [si [-> _]]; [lia|]. simpl.
    eexists. split; [reflexivity|].
    destruct (isOnLeftOf sp sq si); lia.
  - exists q. split; assumption.
Qed.

(** One iteration of the [do ... while] loop. *)
Lemma wrap_unfold (s : list PointRef) (l max p : nat) (hull : list PointRef) :
  wrap s l max p hull =
  (sp <- index s p ;;
   q <- wrapStep s p ;;
   if Nat.eqb q l then Ok (hull ++ [sp])
   else if Nat.leb 2 max then wrap s l (max - 1) q (hull ++ [sp])
        else Ok (hull ++ [sp])).
Proof.
  destruct max as [|[|m]]; reflexivity.
Qed.

(** The loop never throws, and what it returns is [hull] followed by
    [s[p]] and possibly more. *)
Lemma wrap_Ok (s : list PointRef) (l max : nat) :
  forall (p : nat) (hull : list PointRef),
    (p < length s)%nat ->
    exists sp rest,
      nth_error s p = Some sp
      /\ wrap s l max p hull = Ok (hull ++ sp :: rest)
      /\ ((length rest < max)%nat \/ (max = 0%nat /\ rest = [])).
Proof.
  induction max as [|m IH]; intros p hull Hp; rewrite wrap_unfold;
    destruct (index_Ok s p Hp) as [sp [-> Hsp]];
    destruct (wrapStep_Ok s p Hp) as [q [-> Hq]]; simpl.
  - exists sp, []. split; [exact Hsp|].
    split; [destruct (Nat.eqb q l); reflexivity|right; split; reflexivity].
  - destruct (Nat.eqb q l).
    + exists sp, []. split; [exact Hsp|]. split; [reflexivity|left; simpl; lia].
    + destruct m as [|m'].
      * exists sp, []. split; [exact Hsp|]. split; [reflexivity|left; simpl; lia].
      * cbn [Nat.leb]. rewrite Nat.sub_0_r.
        destruct (IH q (hull ++ [sp]) Hq) as [sq [rest [Hsq [Hw Hlen]]]].
        exists sp, (sq :: rest). split; [exact Hsp|].
        rewrite Hw, <- app_assoc. split; [reflexivity|].
        left. simpl. destruct Hlen as [Hlen|[Hm _]]; [lia|discriminate].
Qed.

(** C6: for at least three points [convexHull] returns a non-empty list
    whose first element is [s[l]], where [s[l]] has the least
    x-coordinate of the input and every point before it in the input has
    a strictly greater one. *)
Theorem convexHull_starts_leftmost (s : list PointRef) :
  (3 <= length s)%nat ->
  exists (l : nat) (first : PointRef) (rest : list PointRef),
    convexHull s = Ok (first :: rest)
    /\ nth_error s l = Some first
    /\ (forall j pj, nth_error s j = Some pj ->
                     x (target first) <= x (target pj))
    /\ (forall j pj, (j < l)%nat -> nth_error s j = Some pj ->
                     x (target first) < x (target pj)).
Proof.
  intro Hn. unfold convexHull.
  replace (Nat.ltb (length s) 3) with false
    by (symmetry; apply Nat.ltb_ge; exact Hn).
  destruct (leftmost_spec s) as [l [-> [Hl [pl [Hpl [Hmin Hfirst]]]]]]; [lia|].
  simpl.
  destruct (wrap_Ok s l (length s + 1) l [] Hl) as [sp [rest [Hsp [Hw _]]]].
  rewrite Hpl in Hsp. injection Hsp as <-.
  exists l, pl, rest. split; [exact Hw|]. split; [exact Hpl|]. split.
  - intros j pj Hpj. apply (Hmin j pj); [|exact Hpj].
    apply nth_error_Some. rewrite Hpj. discriminate.
  - exact Hfirst.
Qed.

Lemma convexHull_starts_leftmost_witness :
  exists (l : nat) (first : PointRef) (rest : list PointRef),
    convexHull (allocate 0 [mkPoint 1 0; mkPoint 0 0; mkPoint 1 1; mkPoint 0 1])
    = Ok (first :: rest)
    /\ l = 1%nat /\ target first = mkPoint 0 0.
Proof.
  destruct (@convexHull_starts_leftmost
              (allocate 0 [mkPoint 1 0; mkPoint 0 0; mkPoint 1 1; mkPoint 0 1]))
    as [l [first [rest [Hh [Hl _]]]]].
  - simpl. lia.
  - exists l, first, rest. split; [exact Hh|].
    vm_compute in Hh. injection Hh as <- _.
    destruct l as [|[|[|[|[|l]]]]]; try discriminate Hl.
    split; reflexivity.
Defined.

(** ** Convex hull: the safety bound *)

(** When the wrap started at [p] does not come back to [l] within [max]
    turns, the loop runs [max] times and returns the [max] vertices it
    went through. *)
Lemma wrap_truncated (s : list PointRef) (l max : nat) :
  forall (p : nat) (hull : list PointRef),
    (p < length s)%nat ->
    (1 <= max)%nat ->
    returnsWithin s l max p = false ->
    exists rest,
      wrap s l max p hull = Ok (hull ++ rest)
      /\ length rest = max
      /\ forall k, (k < max)%nat ->
           exists pk, wrapIter s k p = Ok pk
                      /\ (pk < length s)%nat
                      /\ nth_error rest k = nth_error s pk.
Proof.
  induction max as [|m IH]; intros p hull Hp Hmax Hret; [lia|].
  rewrite wrap_unfold.
  destruct (index_Ok s p Hp) as [sp [-> Hsp]].
  destruct (wrapStep_Ok s p Hp) as [q [Hq Hqn]].
  simpl in Hret. rewrite Hq in Hret. rewrite Hq. simpl.
  apply orb_false_iff in Hret. destruct Hret as [Hql Hret]. rewrite Hql.
  destruct m as [|m'].
  - exists [sp]. split; [reflexivity|]. split; [reflexivity|].
    intros k Hk. assert (k = 0)%nat by lia. subst.
    exists p. split; [reflexivity|]. split; [exact Hp|]. symmetry. exact Hsp.
  - cbn [Nat.leb]. rewrite Nat.sub_0_r.
    destruct (IH q (hull ++ [sp]) Hqn) as [rest [Hw [Hlen Hvis]]];
      [lia|exact Hret|].
    exists (sp :: rest). rewrite Hw, <- app_assoc.
    split; [reflexivity|]. split; [simpl; lia|].
    intros [|k] Hk.
    + exists p. split; [reflexivity|]. split; [exact Hp|]. symmetry. exact Hsp.
    + destruct (Hvis k) as [pk [Hpk [Hlt Hnth]]]; [lia|].
      exists pk. simpl. rewrite Hq. simpl.
      split; [exact Hpk|]. split; [exact Hlt|exact Hnth].
Qed.

(** C7, as the code has it: for at least three points, when the wrap does
    not come back to its starting point within [length s + 1]
    iterations, [convexHull] throws nothing: it returns the
    [length s + 1] vertices gone through so far, the [k]-th being the
    point reached after [k] turns from the starting point. *)
Theorem convexHull_truncates (s : list PointRef) :
  (3 <= length s)%nat ->
  closesWithin s (length s + 1) = false ->
  exists (l : nat) (hull : list PointRef),
    leftmost s = Ok l
    /\ convexHull s = Ok hull
    /\ length hull = (length s + 1)%nat
    /\ forall k, (k <= length s)%nat ->
         exists pk, wrapIter s k l = Ok pk
                    /\ (pk < length s)%nat
                    /\ nth_error hull k = nth_error s pk.
Proof.
  intros Hn Hopen. unfold convexHull, closesWithin in *.
  replace (Nat.ltb (length s) 3) with false
    by (symmetry; apply Nat.ltb_ge; exact Hn).
  destruct (leftmost_spec s) as [l [Hl [Hlt _]]]; [lia|].
  rewrite Hl in *. simpl.
  destruct (wrap_truncated s l (length s + 1) l [] Hlt) as [rest [Hw [Hlen Hvis]]];
    [lia|exact Hopen|].
  exists l, rest. split; [reflexivity|]. split; [exact Hw|].
  split; [exact Hlen|].
  intros k Hk. apply Hvis. lia.
Qed.

Lemma convexHull_truncates_witness :
  exists (l : nat) (hull : list PointRef),
    leftmost (allocate 0 [mkPoint 0 0; mkPoint 0 (-1); mkPoint 0 1; mkPoint 1 0])
    = Ok l
    /\ convexHull (allocate 0 [mkPoint 0 0; mkPoint 0 (-1); mkPoint 0 1; mkPoint 1 0])
       = Ok hull
    /\ length hull = 5%nat.
Proof.
  destruct (@convexHull_truncates
              (allocate 0 [mkPoint 0 0; mkPoint 0 (-1); mkPoint 0 1; mkPoint 1 0]))
    as [l [hull [Hl [Hh [Hlen _]]]]].
  - simpl. lia.
  - vm_compute. reflexivity.
  - exists l, hull. split; [exact Hl|]. split; [exact Hh|exact Hlen].
Defined.

(** C7, as stated, fails: on these four points the wrap goes
    0, 3, 1, 2, 3, ... and never comes back to index 0; after five
    iterations [convexHull] returns the five vertices collected, and
    throws nothing. *)
Lemma convexHull_bound_not_reported :
  let s := allocate 0 [mkPoint 0 0; mkPoint 0 (-1); mkPoint 0 1; mkPoint 1 0] in
  (3 <= length s)%nat
  /\ closesWithin s (length s + 1) = false
  /\ convexHull s
     = Ok [ mkRef 0 (mkPoint 0 0); mkRef 3 (mkPoint 1 0); mkRef 1 (mkPoint 0 (-1));
            mkRef 2 (mkPoint 0 1); mkRef 3 (mkPoint 1 0) ]
  /\ ~ exists e, convexHull s = Throw e.
Proof.
  intro s. split; [simpl; lia|]. split; [vm_compute; reflexivity|].
  assert (H : convexHull s
              = Ok [ mkRef 0 (mkPoint 0 0); mkRef 3 (mkPoint 1 0);
                     mkRef 1 (mkPoint 0 (-1)); mkRef 2 (mkPoint 0 1);
                     mkRef 3 (mkPoint 1 0) ])
    by (vm_compute; reflexivity).
  split; [exact H|]. intros [e He]. rewrite H in He. discriminate.
Qed.

(** ** Convex hull: enclosure *)

(** C5 fails on the code.  Of these five distinct points the first has
    the least x, together with three others on the line x = 0.  The wrap
    goes from (0,0) to (1,0), then to (0,-2), then back to (0,0): the
    returned triangle has no vertex at the input point (0,1), which is
    strictly on the left of its edge (0,0) -> (1,0), and so outside it;
    every vertex of the triangle has y <= 0 while the point has y = 1. *)
Theorem convexHull_misses_input_point :
  let s := allocate 0 [ mkPoint 0 0; mkPoint 0 (-1); mkPoint 0 1;
                        mkPoint 1 0; mkPoint 0 (-2) ] in
  let hull := [ mkPoint 0 0; mkPoint 1 0; mkPoint 0 (-2) ] in
  let p := mkPoint 0 1 in
  (3 <= length s)%nat
  /\ NoDup (List.map target s)
  /\ convexHull s
     = Ok [ mkRef 0 (mkPoint 0 0); mkRef 3 (mkPoint 1 0); mkRef 4 (mkPoint 0 (-2)) ]
  /\ List.map target [ mkRef 0 (mkPoint 0 0); mkRef 3 (mkPoint 1 0);
                       mkRef 4 (mkPoint 0 (-2)) ] = hull
  /\ In p (List.map target s)
  /\ isVertex hull p = false
  /\ insideOrOn hull p = false
  /\ strictlyLeft (mkPoint 0 0, mkPoint 1 0) p = true
  /\ (forall v, In v hull -> y v <= 0)
  /\ 0 < y p.
Proof.
  intros s hull p.
  split; [simpl; lia|].
  split.
  { simpl. repeat constructor; simpl; intuition discriminate. }
  split; [vm_compute; reflexivity|].
  split; [reflexivity|].
  split; [simpl; tauto|].
  split; [vm_compute; reflexivity|].
  split; [vm_compute; reflexivity|].
  split; [vm_compute; reflexivity|].
  split.
  - intros v [<-|[<-|[<-|[]]]]; simpl; lra.
  - simpl. lra.
Qed.

(** ** Box *)

Lemma pulled_code_spec (vp p : Point) :
  Point.plus p (Vector.times (Point.vectorFrom vp p) (3 # 10))
  =p= pulledToward (3 # 10) vp p.
Proof. unfold Peq, pulledToward; simpl. split; ring. Qed.

(** C8, as the code has it: each back-face vertex is the front-face
    vertex [p] of the same index offset by [3/10 * (VP - p)]; the factor
    is the constant written in [Box.draw], and the [depth] of the box has
    no part in it. *)
Theorem backPoints_pulled_by_constant (this : Box) (config : Config) :
  length (Box.frontPoints this) = 4%nat
  /\ length (Box.backPoints this config) = 4%nat
  /\ (forall i p, nth_error (Box.frontPoints this) i = Some p ->
        exists b, nth_error (Box.backPoints this config) i = Some b
                  /\ b =p= pulledToward (3 # 10) (vanishingPoint config) p)
  /\ (forall d : Q,
        Box.backPoints (mkBox (p1 this) (p2 this) d) config
        = Box.backPoints this config).
Proof.
  split; [reflexivity|]. split; [reflexivity|]. split.
  - intros i p Hp. unfold Box.backPoints.
    rewrite nth_error_map, Hp. simpl.
    eexists. split; [reflexivity|]. apply pulled_code_spec.
  - intro d. reflexivity.
Qed.

(** C8, as stated, fails: in the scene of the specification's scenario
    [new Config] makes the box with [depth] 50; its first back vertex is
    (65,135), which is (50,150) offset by 3/10 of the way to (100,100),
    and not (50,150) offset by 50 * (VP - p). *)
Lemma backPoints_not_depth_scaled :
  exists (config : Config) (p b : Point),
    newConfig 800 600 (mkControlPoints scenarioPoints None None) = Ok config
    /\ depth (box config) = 50
    /\ nth_error (Box.frontPoints (box config)) 0 = Some p
    /\ nth_error (Box.backPoints (box config) config) 0 = Some b
    /\ b =p= mkPoint 65 135
    /\ ~ b =p= pulledToward (depth (box config)) (vanishingPoint config) p.
Proof.
  eexists. eexists. eexists.
  split; [reflexivity|]. split; [reflexivity|].
  split; [reflexivity|]. split; [reflexivity|].
  split; [split; vm_compute; reflexivity|].
  intros [Hx _]. vm_compute in Hx. discriminate.
Qed.

Lemma shadowLoop_unfold (this : Box) (config : Config) :
  Box.shadowLoop this config =
  (top <- Box.topPoints this config ;;
   bottom <- Box.bottomPoints this config ;;
   st0 <- Box.shadowBody config top bottom 0 (mkShadowArrays [] [] []) ;;
   st1 <- Box.shadowBody config top bottom 1 st0 ;;
   st2 <- Box.shadowBody config top bottom 2 st1 ;;
   Box.shadowBody config top bottom 3 st2).
Proof.
  unfold Box.shadowLoop. simpl.
  destruct (Box.shadowBody _ _ _ 0 _) as [st0|]; [simpl|reflexivity].
  destruct (Box.shadowBody _ _ _ 1 _) as [st1|]; [simpl|reflexivity].
  destruct (Box.shadowBody _ _ _ 2 _) as [st2|]; [simpl|reflexivity].
  destruct (Box.shadowBody _ _ _ 3 _) as [st3|]; reflexivity.
Qed.


(** The same defect in a scene: [collinearShadowScene] is what
    [new Config] makes of its control points; its first shadow vertex is
    (36,12); the polygon that [Box.draw] hands to the renderer is
    (-207/2,12), (12,12), (11,8), (0,8), and the shadow vertex (36,12) is
    outside it. *)
Example Box_draw_hull_misses_shadow_vertex :
  newConfig 800 600 (controlPoints collinearShadowScene) = Ok collinearShadowScene
  /\ exists (st : ShadowArrays) (v : Point) (poly : list (Q * Q)),
      Box.shadowLoop (box collinearShadowScene) collinearShadowScene = Ok st
      /\ nth_error (shadow st) 0 = Some v
      /\ v =p= mkPoint 36 12
      /\ Box.draw (box collinearShadowScene) collinearShadowScene = Ok poly
      /\ sameCoords poly [(- (207 # 2), 12); (12, 12); (11, 8); (0, 8)]
      /\ insideOrOn (List.map (fun c => mkPoint (fst c) (snd c)) poly) v = false
      /\ isVertex (List.map (fun c => mkPoint (fst c) (snd c)) poly) v = false.
Proof.
  split; [reflexivity|].
  do 3 eexists.
  split; [vm_compute; reflexivity|].
  split; [reflexivity|].
  split; [split; vm_compute; reflexivity|].
  split; [vm_compute; reflexivity|].
  split.
  - repeat constructor; vm_compute; reflexivity.
  - split; vm_compute; reflexivity.
Qed.

(** On other inputs the returned list does not even turn one way: here
    the wrap leaves (-2,0) for (-1,0), never comes back, and the six
    vertices returned turn clockwise at (-1,0) and counter-clockwise at
    (-2,1). *)
Example convexHull_turns_both_ways :
  let s := allocate 0 [ mkPoint (-2) 0; mkPoint (-2) (-1); mkPoint (-2) 1;
                        mkPoint (-1) 0; mkPoint 2 (-1) ] in
  exists hull : list PointRef,
    convexHull s = Ok hull
    /\ List.map addr hull = [0; 3; 2; 4; 1; 2]%nat
    /\ exists t0 t1 rest, turns (List.map target hull) = t0 :: t1 :: rest
                          /\ 0 < t0 /\ t1 < 0.
Proof.
  intro s. eexists. split; [vm_compute; reflexivity|].
  split; [reflexivity|].
  do 3 eexists. split; [vm_compute; reflexivity|].
  split; reflexivity.
Qed.

(** * Further properties of the code *)

(** ** Line intersection, continued *)

Lemma intersectWith_Ok_cross (a b : Line) (p : Point) :
  Line.intersectWith a b = Ok p -> ~ cross (direction a) (direction b) == 0.
Proof.
  intros Hp E. rewrite (intersectWith_throws _ _ E) in Hp. discriminate.
Qed.

(** X2: whether [intersectWith] throws does not depend on the order of
    its two lines: [a.intersectWith(b)] throws the parallel-lines error
    exactly when [b.intersectWith(a)] does, and returns a point exactly
    when [b.intersectWith(a)] does. *)
Theorem intersectWith_throws_symmetric (a b : Line) :
  (Line.intersectWith a b = Throw LinesAreParallel
   <-> Line.intersectWith b a = Throw LinesAreParallel)
  /\ ((exists p, Line.intersectWith a b = Ok p)
      <-> (exists q, Line.intersectWith b a = Ok q)).
Proof.
  assert (Hsym : forall u v : Line,
             Line.intersectWith u v = Throw LinesAreParallel ->
             Line.intersectWith v u = Throw LinesAreParallel).
  { intros u v H. apply intersectWith_throw_iff, cross_swap.
    apply intersectWith_throw_iff. exact H. }
  assert (Hret : forall u v : Line,
             (exists p, Line.intersectWith u v = Ok p) ->
             exists q, Line.intersectWith v u = Ok q).
  { intros u v [p Hp].
    pose proof (intersectWith_Ok_cross _ _ _ Hp) as E.
    eexists. apply intersectWith_returns.
    intro H. apply E, cross_swap, H. }
  split; split; first [apply Hsym | apply Hret].
Qed.

(** X3: the point returned by [intersectWith] is the only point of both
    infinite lines: any point that has the parametric form of both lines
    has the coordinates of the returned point. *)
Theorem intersectWith_unique (a b : Line) (p q : Point) :
  Line.intersectWith a b = Ok p ->
  onInfiniteLine a q ->
  onInfiniteLine b q ->
  q =p= p.
Proof.
  intros Hp [t [Hax Hay]] [u [Hbx Hby]].
  pose proof (intersectWith_Ok_cross _ _ _ Hp) as E.
  rewrite (intersectWith_returns _ _ E) in Hp. injection Hp as <-.
  revert E Hax Hay Hbx Hby. unfold cross, direction, Point.vectorFrom.
  destruct a as [[ax ay] [bx b_y] ? ?], b as [[cx cy] [dx dy] ? ?],
           q as [qx qy].
  unfold Peq; simpl. intros E Hax Hay Hbx Hby.
  set (denom := (b_y - ay) * (dx - cx) - (bx - ax) * (dy - cy)).
  set (num := (ax - cx) * (dy - cy) - (ay - cy) * (dx - cx)).
  assert (Hd : ~ denom == 0) by (unfold denom; intro H; apply E; lra).
  assert (Ht : t * denom == num).
  { unfold denom, num.
    assert (E1 : ax - cx == (dx - cx) * u - (bx - ax) * t) by lra.
    assert (E2 : ay - cy == (dy - cy) * u - (b_y - ay) * t) by lra.
    rewrite E1, E2. ring. }
  assert (Ht' : t == num / denom).
  { rewrite <- Ht. field. exact Hd. }
  split.
  - rewrite Hax, Ht'. reflexivity.
  - rewrite Hay, Ht'. reflexivity.
Qed.

Lemma intersectWith_unique_witness :
  mkPoint 2 2 =p= mkPoint (16 # 8) (16 # 8).
Proof.
  apply (@intersectWith_unique
           (mkLine (mkPoint 0 0) (mkPoint 1 1) true false)
           (mkLine (mkPoint 0 4) (mkPoint 4 0) true false)
           (mkPoint (16 # 8) (16 # 8)) (mkPoint 2 2)).
  - vm_compute. reflexivity.
  - exists 2. split; vm_compute; reflexivity.
  - exists (1 # 2). split; vm_compute; reflexivity.
Defined.

(** X4: the vertical line [Line.upFrom(p)] is parallel exactly to the
    lines whose begin and end have the same x; and a point it returns
    from [intersectWith] has the x of [p] and is on the other line. *)
Theorem upFrom_intersectWith (p : Point) (other : Line) :
  (Line.intersectWith (Line.upFrom p) other = Throw LinesAreParallel
   <-> x (begin other) == x (end_ other))
  /\ (forall q, Line.intersectWith (Line.upFrom p) other = Ok q ->
                x q == x p /\ onInfiniteLine other q).
Proof.
  split.
  - rewrite intersectWith_throw_iff.
    unfold cross, direction, Line.upFrom, Point.vectorFrom, Point.plus; simpl.
    split; intro H.
    + assert (H' : 100 * (x (end_ other) - x (begin other)) == 0).
      { rewrite <- H. ring. }
      apply Qmult_integral in H'. destruct H' as [H'|H']; [discriminate|lra].
    + rewrite H. ring.
  - intros q Hq. split.
    + pose proof (intersectWith_Ok_cross _ _ _ Hq) as E.
      rewrite (intersectWith_returns _ _ E) in Hq. injection Hq as <-.
      unfold Line.upFrom, direction, Point.vectorFrom, Point.plus; simpl. ring.
    + apply (intersectWith_Ok_on_lines _ _ _ Hq).
Qed.

(** ** The left-of test *)

Lemma sameRef_sym (a b : PointRef) : sameRef a b = sameRef b a.
Proof. apply Nat.eqb_sym. Qed.

(** The number that [isOnLeftOf] compares with 0. *)
Lemma leftOf_cross (p1 p2 p : PointRef) :
  vx (Point.vectorFrom (target p2) (target p1))
  * vy (Point.vectorFrom (target p) (target p1))
  - vx (Point.vectorFrom (target p) (target p1))
    * vy (Point.vectorFrom (target p2) (target p1))
  == cross (Point.vectorFrom (target p2) (target p1))
           (Point.vectorFrom (target p) (target p1)).
Proof. unfold cross. ring. Qed.

Lemma isOnLeftOf_true (p1 p2 p : PointRef) :
  isOnLeftOf p1 p2 p = true ->
  sameRef p1 p2 = false /\ sameRef p p1 = false /\ sameRef p p2 = false
  /\ 0 < cross (Point.vectorFrom (target p2) (target p1))
               (Point.vectorFrom (target p) (target p1)).
Proof.
  unfold isOnLeftOf. intro H.
  destruct (sameRef p1 p2); [discriminate|].
  destruct (sameRef p p1); [discriminate|].
  destruct (sameRef p p2); [discriminate|].
  simpl in H. apply Qltb_lt in H. rewrite <- leftOf_cross.
  repeat split; exact H.
Qed.

(** X5: the three identity tests of [isOnLeftOf] never change its
    answer.  With references whose equal addresses name equal points,
    [isOnLeftOf] returns what the comparison [a.x*b.y - b.x*a.y > 0]
    returns by itself, also when two of the three arguments are the same
    object. *)
Theorem isOnLeftOf_shortcuts_redundant (p1 p2 p : PointRef) :
  consistentRefs p1 p2 ->
  consistentRefs p p1 ->
  consistentRefs p p2 ->
  isOnLeftOf p1 p2 p
  = Qltb 0 (vx (Point.vectorFrom (target p2) (target p1))
            * vy (Point.vectorFrom (target p) (target p1))
            - vx (Point.vectorFrom (target p) (target p1))
              * vy (Point.vectorFrom (target p2) (target p1))).
Proof.
  intros H12 H1 H2. unfold isOnLeftOf.
  destruct (sameRef p1 p2) eqn:E12.
  { rewrite <- (H12 E12). simpl. symmetry. apply Qltb_ge.
    apply Qle_lteq. right. ring. }
  destruct (sameRef p p1) eqn:E1.
  { rewrite (H1 E1). simpl. symmetry. apply Qltb_ge.
    apply Qle_lteq. right. ring. }
  destruct (sameRef p p2) eqn:E2.
  { rewrite (H2 E2). simpl. symmetry. apply Qltb_ge.
    apply Qle_lteq. right. ring. }
  reflexivity.
Qed.

Lemma isOnLeftOf_shortcuts_redundant_witness :
  isOnLeftOf (mkRef 0 (mkPoint 0 0)) (mkRef 1 (mkPoint 3 1)) (mkRef 1 (mkPoint 3 1))
  = Qltb 0 (vx (Point.vectorFrom (mkPoint 3 1) (mkPoint 0 0))
            * vy (Point.vectorFrom (mkPoint 3 1) (mkPoint 0 0))
            - vx (Point.vectorFrom (mkPoint 3 1) (mkPoint 0 0))
              * vy (Point.vectorFrom (mkPoint 3 1) (mkPoint 0 0))).
Proof.
  apply (@isOnLeftOf_shortcuts_redundant
           (mkRef 0 (mkPoint 0 0)) (mkRef 1 (mkPoint 3 1)) (mkRef 1 (mkPoint 3 1))).
  - intro H. vm_compute in H. discriminate H.
  - intro H. vm_compute in H. discriminate H.
  - intro H. reflexivity.
Defined.

(** When [p] is on the left of [p1 -> p2], [p2] is not on the left of
    [p1 -> p]: the second test compares the opposite number with 0. *)
Lemma isOnLeftOf_swap (p1 p2 p : PointRef) :
  isOnLeftOf p1 p2 p = true -> isOnLeftOf p1 p p2 = false.
Proof.
  intro H. apply isOnLeftOf_true in H. destruct H as [E12 [E1 [E2 Hc]]].
  unfold isOnLeftOf.
  rewrite (sameRef_sym p1 p), (sameRef_sym p2 p1), (sameRef_sym p2 p), E12, E1, E2.
  simpl. revert Hc. unfold cross, Point.vectorFrom; simpl. intro Hc.
  apply Qltb_ge. lra.
Qed.

(** X6: the left-of test is one-sided about its first point: when [p] is
    on the left of [p1 -> p2], [p2] is not on the left of [p1 -> p]. *)
Theorem isOnLeftOf_asymmetric (p1 p2 p : PointRef) :
  isOnLeftOf p1 p2 p = true ->
  isOnLeftOf p1 p p2 = false.
Proof.
  intro H. destruct (isOnLeftOf_true _ _ _ H) as [E12 [E1 [E2 Hc]]].
  unfold isOnLeftOf.
  rewrite (sameRef_sym p1 p), (sameRef_sym p2 p1), (sameRef_sym p2 p), E12, E1, E2.
  simpl. revert Hc. unfold cross, Point.vectorFrom; simpl. intro Hc.
  apply Qltb_ge. lra.
Qed.

Lemma isOnLeftOf_asymmetric_witness :
  isOnLeftOf (mkRef 0 (mkPoint 0 0)) (mkRef 2 (mkPoint 0 1)) (mkRef 1 (mkPoint 1 0))
  = false.
Proof.
  apply (@isOnLeftOf_asymmetric
           (mkRef 0 (mkPoint 0 0)) (mkRef 1 (mkPoint 1 0)) (mkRef 2 (mkPoint 0 1))).
  vm_compute. reflexivity.
Defined.

(** ** Convex hull: errors, size and content of the result *)

(** X7: [convexHull] throws exactly when it is given fewer than three
    points, and then with its own error; on three points or more it
    returns a list. *)
Theorem convexHull_error_iff (s : list PointRef) (e : Error) :
  convexHull s = Throw e
  <-> ((length s < 3)%nat /\ e = ConvexHullNeedsThreePoints).
Proof.
  unfold convexHull. destruct (Nat.ltb (length s) 3) eqn:E.
  - apply Nat.ltb_lt in E. split.
    + intro H. injection H as <-. split; [exact E|reflexivity].
    + intros [_ ->]. reflexivity.
  - apply Nat.ltb_ge in E. split.
    + intro H. exfalso.
      destruct (leftmost_spec s) as [l [Hl [Hlt _]]]; [lia|].
      rewrite Hl in H. simpl in H.
      destruct (wrap_Ok s l (length s + 1) l [] Hlt) as [sp [rest [_ [Hw _]]]].
      rewrite Hw in H. discriminate.
    + intros [H _]. lia.
Qed.

Lemma wrapIter_add (s : list PointRef) (a b : nat) :
  forall p, wrapIter s (a + b) p = (q <- wrapIter s a p ;; wrapIter s b q).
Proof.
  induction a as [|a IH]; intro p; simpl; [reflexivity|].
  destruct (wrapStep s p) as [q|e]; simpl; [apply IH|reflexivity].
Qed.

Lemma wrapIter_S (s : list PointRef) (k p q : nat) :
  wrapStep s p = Ok q -> wrapIter s (S k) p = wrapIter s k q.
Proof. intro H. simpl. rewrite H. reflexivity. Qed.

Lemma returnsWithin_iff (s : list PointRef) (l k : nat) :
  forall p, returnsWithin s l k p = true
            <-> exists j, (1 <= j <= k)%nat /\ wrapIter s j p = Ok l.
Proof.
  induction k as [|k IH]; intro p; simpl.
  - split; [discriminate|]. intros [j [Hj _]]. lia.
  - destruct (wrapStep s p) as [q|e] eqn:Hq.
    + rewrite orb_true_iff, IH, Nat.eqb_eq. split.
      * intros [->|[j [Hj Hw]]].
        -- exists 1%nat. split; [lia|]. simpl. rewrite Hq. reflexivity.
        -- exists (S j). split; [lia|]. rewrite (wrapIter_S _ _ _ _ Hq). exact Hw.
      * intros [[|[|j]] [Hj Hw]]; [lia| |].
        -- left. simpl in Hw. rewrite Hq in Hw. simpl in Hw. congruence.
        -- right. exists (S j). split; [lia|].
           rewrite (wrapIter_S _ _ _ _ Hq) in Hw. exact Hw.
    + split; [discriminate|].
      intros [[|j] [Hj Hw]]; [lia|]. simpl in Hw. rewrite Hq in Hw. discriminate.
Qed.

(** What the loop returns, in full: the points at the positions that the
    wrap goes through, up to the first return to [l] or to the bound. *)
Lemma wrap_path (s : list PointRef) (l max : nat) :
  forall (p : nat) (hull : list PointRef),
    (p < length s)%nat ->
    (1 <= max)%nat ->
    exists (idxs : list nat) (rest : list PointRef),
      wrap s l max p hull = Ok (hull ++ rest)
      /\ Forall2 (fun i r => nth_error s i = Some r) idxs rest
      /\ (1 <= length idxs <= max)%nat
      /\ (forall k, (k < length idxs)%nat -> wrapIter s k p = Ok (nth k idxs 0%nat))
      /\ (forall k, (1 <= k < length idxs)%nat -> wrapIter s k p <> Ok l)
      /\ (wrapIter s (length idxs) p = Ok l
          \/ (length idxs = max /\ wrapIter s max p <> Ok l)).
Proof.
  induction max as [|m IH]; intros p hull Hp Hmax; [lia|].
  rewrite wrap_unfold.
  destruct (index_Ok s p Hp) as [sp [-> Hsp]].
  destruct (wrapStep_Ok s p Hp) as [q [Hq Hqn]].
  rewrite Hq. simpl.
  destruct (Nat.eqb q l) eqn:Hql.
  - apply Nat.eqb_eq in Hql. subst q.
    exists [p], [sp]. split; [reflexivity|].
    split; [constructor; [exact Hsp|constructor]|].
    split; [simpl; lia|].
    split; [intros k Hk; simpl in Hk; assert (k = 0)%nat by lia; subst; reflexivity|].
    split; [intros k Hk; simpl in Hk; lia|].
    left. simpl. rewrite Hq. reflexivity.
  - apply Nat.eqb_neq in Hql.
    destruct m as [|m'].
    + exists [p], [sp]. split; [reflexivity|].
      split; [constructor; [exact Hsp|constructor]|].
      split; [simpl; lia|].
      split; [intros k Hk; simpl in Hk; assert (k = 0)%nat by lia; subst; reflexivity|].
      split; [intros k Hk; simpl in Hk; lia|].
      right. split; [reflexivity|]. simpl. rewrite Hq. simpl. congruence.
    + cbn [Nat.leb]. rewrite Nat.sub_0_r.
      destruct (IH q (hull ++ [sp]) Hqn) as
          [idxs [rest [Hw [Hf [Hlen [Hnth [Hno Hend]]]]]]]; [lia|].
      exists (p :: idxs), (sp :: rest).
      rewrite Hw, <- app_assoc. split; [reflexivity|].
      split; [constructor; assumption|].
      split; [simpl; lia|].
      split.
      { intros [|k] Hk; [reflexivity|].
        rewrite (wrapIter_S _ _ _ _ Hq). simpl. apply Hnth. simpl in Hk. lia. }
      split.
      { intros [|[|k]] Hk; [lia| |].
        - simpl. rewrite Hq. simpl. congruence.
        - rewrite (wrapIter_S _ _ _ _ Hq). apply Hno. simpl in Hk. lia. }
      simpl length.
      destruct Hend as [Hend|[Hend1 Hend2]].
      { left. rewrite (wrapIter_S _ _ _ _ Hq). exact Hend. }
      right. split; [lia|].
      rewrite Hq. simpl. exact Hend2.
Qed.

Lemma Forall2_positions (s : list PointRef) (idxs : list nat) (rest : list PointRef) :
  Forall2 (fun i r => nth_error s i = Some r) idxs rest ->
  length idxs = length rest
  /\ (forall r, In r rest -> In r s)
  /\ (forall i, In i idxs -> (i < length s)%nat).
Proof.
  induction 1 as [|i r idxs rest Hir _ [IH1 [IH2 IH3]]].
  - split; [reflexivity|]. split; intros ? [].
  - split; [simpl; lia|]. split.
    + intros r' [<-|Hr]; [eapply nth_error_In; exact Hir|apply IH2, Hr].
    + intros i' [<-|Hi]; [|apply IH3, Hi].
      apply nth_error_Some. rewrite Hir. discriminate.
Qed.

(** X8: a list returned by [convexHull] has between 1 and
    [length s + 1] elements, and each of them is an element of the
    input: the hull invents no point. *)
Theorem convexHull_subset (s hull : list PointRef) :
  convexHull s = Ok hull ->
  (1 <= length hull <= length s + 1)%nat
  /\ forall r, In r hull -> In r s.
Proof.
  unfold convexHull. destruct (Nat.ltb (length s) 3) eqn:E; [discriminate|].
  apply Nat.ltb_ge in E.
  destruct (leftmost_spec s) as [l [Hl [Hlt _]]]; [lia|].
  rewrite Hl. simpl.
  destruct (wrap_path s l (length s + 1) l [] Hlt) as
      [idxs [rest [Hw [Hf [Hlen _]]]]]; [lia|].
  rewrite Hw. simpl. intro H. injection H as <-.
  destruct (Forall2_positions _ _ _ Hf) as [H1 [H2 _]].
  split; [lia|exact H2].
Qed.

Lemma convexHull_subset_witness :
  (1 <= length [ mkRef 0 (mkPoint 0 0); mkRef 3 (mkPoint 0 1);
                 mkRef 2 (mkPoint 1 1); mkRef 1 (mkPoint 1 0) ] <= 4 + 1)%nat
  /\ forall r,
      In r [ mkRef 0 (mkPoint 0 0); mkRef 3 (mkPoint 0 1);
             mkRef 2 (mkPoint 1 1); mkRef 1 (mkPoint 1 0) ] ->
      In r (allocate 0 [mkPoint 0 0; mkPoint 1 0; mkPoint 1 1; mkPoint 0 1]).
Proof.
  apply (@convexHull_subset
           (allocate 0 [mkPoint 0 0; mkPoint 1 0; mkPoint 1 1; mkPoint 0 1])).
  vm_compute. reflexivity.
Defined.

(** X9: the length of the result tells whether the wrap closed.  Either
    the wrap came back to its starting point: then the vertices returned
    are at pairwise distinct positions of the input and there are at most
    [length s] of them; or it did not, and exactly [length s + 1]
    vertices are returned. *)
Theorem convexHull_closed_or_truncated (s : list PointRef) :
  (3 <= length s)%nat ->
  exists (idxs : list nat) (hull : list PointRef),
    convexHull s = Ok hull
    /\ Forall2 (fun i r => nth_error s i = Some r) idxs hull
    /\ ((closesWithin s (length s + 1) = true
         /\ NoDup idxs /\ (length hull <= length s)%nat)
        \/ (closesWithin s (length s + 1) = false
            /\ length hull = (length s + 1)%nat)).
Proof.
  intro Hn. unfold convexHull, closesWithin.
  replace (Nat.ltb (length s) 3) with false
    by (symmetry; apply Nat.ltb_ge; exact Hn).
  destruct (leftmost_spec s) as [l [Hl [Hlt _]]]; [lia|].
  rewrite Hl. simpl.
  destruct (wrap_path s l (length s + 1) l [] Hlt) as
      [idxs [rest [Hw [Hf [Hlen [Hnth [Hno Hend]]]]]]]; [lia|].
  exists idxs, rest. split; [exact Hw|]. split; [exact Hf|].
  destruct (Forall2_positions _ _ _ Hf) as [Hlen' [_ Hbound]].
  destruct Hend as [Hclosed|[Hfull Hopen]].
  - left.
    assert (Hnd : NoDup idxs).
    { apply (NoDup_nth idxs 0%nat). intros i j Hi Hj Hij.
      destruct (Nat.eq_dec i j) as [Heq|Hne]; [exact Heq|exfalso].
      assert (Hwlog : forall a b, (a < b < length idxs)%nat ->
                                  nth a idxs 0%nat = nth b idxs 0%nat -> False).
      { intros a b Hab Hnab.
        apply (Hno (a + (length idxs - b))%nat); [lia|].
        rewrite wrapIter_add, (Hnth a), Hnab by lia. simpl.
        rewrite <- Hclosed.
        replace (length idxs) with (b + (length idxs - b))%nat at 2 by lia.
        rewrite wrapIter_add, (Hnth b) by lia. reflexivity. }
      destruct (Nat.lt_ge_cases i j) as [Hlt'|Hge].
      - apply (Hwlog i j); [lia|exact Hij].
      - apply (Hwlog j i); [lia|symmetry; exact Hij]. }
    split; [|split; [exact Hnd|]].
    + apply returnsWithin_iff. exists (length idxs). split; [lia|exact Hclosed].
    + rewrite <- Hlen', <- (length_seq (length s) 0).
      apply NoDup_incl_length; [exact Hnd|].
      intros i Hi. apply in_seq. specialize (Hbound i Hi). lia.
  - right. split; [|lia].
    destruct (returnsWithin s l (length s + 1) l) eqn:Hret; [|reflexivity].
    exfalso. apply returnsWithin_iff in Hret. destruct Hret as [j [Hj Hwj]].
    destruct (Nat.eq_dec j (length s + 1)) as [->|Hne]; [exact (Hopen Hwj)|].
    apply (Hno j); [lia|exact Hwj].
Qed.

Lemma convexHull_closed_or_truncated_witness :
  exists (idxs : list nat) (hull : list PointRef),
    convexHull (allocate 0 [mkPoint 0 0; mkPoint 1 0; mkPoint 1 1; mkPoint 0 1])
    = Ok hull
    /\ idxs = [0; 3; 2; 1]%nat /\ NoDup idxs /\ length hull = 4%nat.
Proof.
  destruct (@convexHull_closed_or_truncated
              (allocate 0 [mkPoint 0 0; mkPoint 1 0; mkPoint 1 1; mkPoint 0 1]))
    as [idxs [hull [Hh [Hf Hcase]]]].
  - simpl. lia.
  - exists idxs, hull. split; [exact Hh|].
    vm_compute in Hh. injection Hh as <-.
    assert (Hidxs : idxs = [0; 3; 2; 1]%nat).
    { repeat match goal with
             | H : Forall2 _ _ (_ :: _) |- _ => inversion H; clear H; subst
             | H : Forall2 _ _ [] |- _ => inversion H; clear H; subst
             end.
      repeat match goal with
             | H : nth_error _ ?i = Some _ |- _ =>
                 do 5 (try destruct i as [|i]); try discriminate H; clear H
             end.
      reflexivity. }
    split; [exact Hidxs|]. split; [|reflexivity].
    rewrite Hidxs. repeat constructor; simpl; intuition discriminate.
Defined.

(** ** Maps of control points *)

Lemma mapGet_None_keys {V : Type} (m : JsMap ControlPointType V)
      (k : ControlPointType) :
  mapGet m k = None <-> ~ In k (List.map fst m).
Proof.
  induction m as [|[k' v] m IH]; simpl.
  - split; [intros _ []|reflexivity].
  - destruct (ControlPointType_eqb k' k) eqn:E.
    + apply ControlPointType_eqb_eq in E. subst.
      split; [discriminate|]. intro H. exfalso. apply H. left. reflexivity.
    + rewrite IH. split.
      * intros H [Hk|Hk]; [|exact (H Hk)].
        subst. rewrite ControlPointType_eqb_refl in E. discriminate.
      * intros H Hk. apply H. right. exact Hk.
Qed.

Lemma mapGet_In {V : Type} (m : JsMap ControlPointType V)
      (k : ControlPointType) (v : V) :
  mapGet m k = Some v -> In (k, v) m.
Proof.
  induction m as [|[k' v'] m IH]; simpl; [discriminate|].
  destruct (ControlPointType_eqb k' k) eqn:E.
  - apply ControlPointType_eqb_eq in E. subst.
    intro H. injection H as <-. left. reflexivity.
  - intro H. right. apply IH, H.
Qed.

(** In a map, where a key occurs once, the entry of a key is the one
    that [get] returns. *)
Lemma mapGet_unique {V : Type} (m : JsMap ControlPointType V)
      (k : ControlPointType) (v v' : V) :
  NoDup (List.map fst m) -> mapGet m k = Some v -> In (k, v') m -> v' = v.
Proof.
  induction m as [|[k0 v0] m IH]; simpl; [intros _ _ []|].
  intros Hnd Hget Hin. inversion Hnd as [|? ? Hnotin Hnd']; subst.
  destruct (ControlPointType_eqb k0 k) eqn:E.
  - apply ControlPointType_eqb_eq in E. subst.
    injection Hget as <-.
    destruct Hin as [Hin|Hin]; [congruence|].
    exfalso. apply Hnotin. apply (in_map fst) in Hin. exact Hin.
  - destruct Hin as [Hin|Hin].
    + injection Hin as -> _. rewrite ControlPointType_eqb_refl in E. discriminate.
    + apply IH; assumption.
Qed.

(** X10: [mapReplace] never adds, removes or reorders keys, and with a
    key that is not in the map it gives the map back unchanged (where
    [get] of the same key throws). *)
Theorem mapReplace_missing_key {V : Type} (m : JsMap ControlPointType V)
        (k : ControlPointType) (f : V -> V) :
  List.map fst (mapReplace m k f) = List.map fst m
  /\ (mapGet m k = None -> mapReplace m k f = m).
Proof.
  split; [apply keys_mapReplace|].
  intro H. apply mapGet_None_keys in H.
  unfold mapReplace, mapMap.
  rewrite <- (map_id m) at 2. apply map_ext_in.
  intros [k' v] Hin. simpl.
  destruct (ControlPointType_eqb k' k) eqn:E; [|reflexivity].
  apply ControlPointType_eqb_eq in E. subst.
  exfalso. apply H. apply (in_map fst) in Hin. exact Hin.
Qed.

(** ** Selecting and dragging *)

Lemma find_first {A : Type} (f : A -> bool) (l : list A) :
  match List.find f l with
  | Some a => exists before after,
                l = before ++ a :: after
                /\ Forall (fun b => f b = false) before
                /\ f a = true
  | None => Forall (fun b => f b = false) l
  end.
Proof.
  induction l as [|a l IH]; simpl; [constructor|].
  destruct (f a) eqn:E.
  - exists [], l. split; [reflexivity|]. split; [constructor|exact E].
  - destruct (List.find f l) as [a'|].
    + destruct IH as [before [after [-> [Hb Ha]]]].
      exists (a :: before), after. split; [reflexivity|].
      split; [constructor; assumption|exact Ha].
    + constructor; assumption.
Qed.

(** X11: [select] never changes the control points.  It selects the
    first entry, in the order of the map, that [isClickedOn] accepts for
    the pointer, with the vector from that point to the pointer as
    delta; when no entry is accepted, nothing is selected and there is
    no delta. *)
Theorem select_first_hit (this : ControlPoints) (p : Point) :
  points (ControlPoints.select this p) = points this
  /\ ((exists before cpt cp after,
         points this = before ++ (cpt, cp) :: after
         /\ Forall (fun kv => ControlPoint.isClickedOn (snd kv) p = false) before
         /\ ControlPoint.isClickedOn cp p = true
         /\ selected (ControlPoints.select this p) = Some cpt
         /\ delta (ControlPoints.select this p) = Some (Point.vectorFrom p cp))
      \/ (Forall (fun kv => ControlPoint.isClickedOn (snd kv) p = false) (points this)
          /\ selected (ControlPoints.select this p) = None
          /\ delta (ControlPoints.select this p) = None)).
Proof.
  unfold ControlPoints.select.
  pose proof (find_first (fun kv => ControlPoint.isClickedOn (snd kv) p)
                         (points this)) as H.
  destruct (List.find _ (points this)) as [[cpt cp]|].
  - split; [reflexivity|]. left.
    destruct H as [before [after [Heq [Hb Ha]]]].
    exists before, cpt, cp, after. simpl in Ha.
    split; [exact Heq|]. split; [exact Hb|]. split; [exact Ha|].
    split; reflexivity.
  - split; [reflexivity|]. right. split; [exact H|split; reflexivity].
Qed.


(** X13: a drag depends on the last pointer position only: two
    [moveTo] in a row give the state of the second one alone. *)
Theorem moveTo_last_wins (this : ControlPoints) (p q : Point) :
  ControlPoints.moveTo (ControlPoints.moveTo this p) q
  = ControlPoints.moveTo this q.
Proof.
  unfold ControlPoints.moveTo.
  destruct (selected this) as [sel|] eqn:Hsel;
    [|simpl; rewrite Hsel; reflexivity].
  destruct (delta this) as [d|] eqn:Hd;
    [|simpl; rewrite Hsel, Hd; reflexivity].
  cbn [selected delta points]. f_equal.
  destruct sel; cbn [ControlPointType_eqb];
    unfold mapReplace, mapMap; rewrite !map_map;
    apply map_ext; intros [[] v]; reflexivity.
Qed.

Lemma moveTo_keys (this : ControlPoints) (p : Point) :
  List.map fst (points (ControlPoints.moveTo this p)) = List.map fst (points this).
Proof.
  unfold ControlPoints.moveTo.
  destruct (selected this) as [sel|]; [|reflexivity].
  destruct (delta this) as [d|]; [|reflexivity].
  destruct sel; cbn [ControlPointType_eqb points];
    rewrite ?keys_mapReplace; reflexivity.
Qed.

(** X14: [moveTo] keeps the keys of the map and their order, so that
    [new Config] succeeds on the state it returns exactly when it
    succeeds on the state it was given. *)
Theorem moveTo_keeps_keys (this : ControlPoints) (p : Point) (w h : Q) :
  List.map fst (points (ControlPoints.moveTo this p)) = List.map fst (points this)
  /\ ((exists c, newConfig w h (ControlPoints.moveTo this p) = Ok c)
      <-> (exists c, newConfig w h this = Ok c)).
Proof.
  pose proof (moveTo_keys this p) as Hkeys.
  split; [exact Hkeys|].
  assert (Hget : forall k, mapGet (points (ControlPoints.moveTo this p)) k = None
                           <-> mapGet (points this) k = None).
  { intro k. rewrite !mapGet_None_keys, Hkeys. reflexivity. }
  unfold newConfig, ControlPoints.get.
  pose proof (Hget VANISHING_POINT) as H0. pose proof (Hget BOX_POINT_1) as H1.
  pose proof (Hget BOX_POINT_2) as H2. pose proof (Hget LIGHT) as H3.
  pose proof (Hget LIGHT_DROP) as H4.
  destruct (mapGet (points (ControlPoints.moveTo this p)) VANISHING_POINT),
           (mapGet (points this) VANISHING_POINT);
    try (destruct H0 as [H0 H0']; first [discriminate (H0 eq_refl)
                                        | discriminate (H0' eq_refl)]);
    simpl; [|split; intros [? ?]; discriminate].
  destruct (mapGet (points (ControlPoints.moveTo this p)) BOX_POINT_1),
           (mapGet (points this) BOX_POINT_1);
    try (destruct H1 as [H1 H1']; first [discriminate (H1 eq_refl)
                                        | discriminate (H1' eq_refl)]);
    simpl; [|split; intros [? ?]; discriminate].
  destruct (mapGet (points (ControlPoints.moveTo this p)) BOX_POINT_2),
           (mapGet (points this) BOX_POINT_2);
    try (destruct H2 as [H2 H2']; first [discriminate (H2 eq_refl)
                                        | discriminate (H2' eq_refl)]);
    simpl; [|split; intros [? ?]; discriminate].
  destruct (mapGet (points (ControlPoints.moveTo this p)) LIGHT),
           (mapGet (points this) LIGHT);
    try (destruct H3 as [H3 H3']; first [discriminate (H3 eq_refl)
                                        | discriminate (H3' eq_refl)]);
    simpl; [|split; intros [? ?]; discriminate].
  destruct (mapGet (points (ControlPoints.moveTo this p)) LIGHT_DROP),
           (mapGet (points this) LIGHT_DROP);
    try (destruct H4 as [H4 H4']; first [discriminate (H4 eq_refl)
                                        | discriminate (H4' eq_refl)]);
    simpl; [|split; intros [? ?]; discriminate].
  split; intros _; eexists; reflexivity.
Qed.

(** ** Building a [Config] *)

Lemma newConfig_of_total (w h : Q) (cps : ControlPoints) :
  totalMap (points cps) ->
  exists vp b1 b2 l ld,
    mapGet (points cps) VANISHING_POINT = Some vp
    /\ mapGet (points cps) BOX_POINT_1 = Some b1
    /\ mapGet (points cps) BOX_POINT_2 = Some b2
    /\ mapGet (points cps) LIGHT = Some l
    /\ mapGet (points cps) LIGHT_DROP = Some ld
    /\ newConfig w h cps = Ok (mkConfig w h cps vp (mkBox b1 b2 50) l ld).
Proof.
  intro Ht. unfold newConfig, ControlPoints.get.
  pose proof (Ht VANISHING_POINT) as H0. pose proof (Ht BOX_POINT_1) as H1.
  pose proof (Ht BOX_POINT_2) as H2. pose proof (Ht LIGHT) as H3.
  pose proof (Ht LIGHT_DROP) as H4.
  destruct (mapGet (points cps) VANISHING_POINT) as [vp|]; [|contradiction].
  destruct (mapGet (points cps) BOX_POINT_1) as [b1|]; [|contradiction].
  destruct (mapGet (points cps) BOX_POINT_2) as [b2|]; [|contradiction].
  destruct (mapGet (points cps) LIGHT) as [l|]; [|contradiction].
  destruct (mapGet (points cps) LIGHT_DROP) as [ld|]; [|contradiction].
  exists vp, b1, b2, l, ld. repeat split; reflexivity.
Qed.

Lemma newConfig_Ok (w h : Q) (cps : ControlPoints) (c : Config) :
  newConfig w h cps = Ok c ->
  totalMap (points cps)
  /\ width c = w /\ height c = h /\ controlPoints c = cps
  /\ mapGet (points cps) VANISHING_POINT = Some (vanishingPoint c)
  /\ mapGet (points cps) BOX_POINT_1 = Some (p1 (box c))
  /\ mapGet (points cps) BOX_POINT_2 = Some (p2 (box c))
  /\ depth (box c) = 50
  /\ mapGet (points cps) LIGHT = Some (light c)
  /\ mapGet (points cps) LIGHT_DROP = Some (lightDrop c).
Proof.
  unfold newConfig, ControlPoints.get, totalMap.
  destruct (mapGet (points cps) VANISHING_POINT) as [vp|] eqn:E0; [|discriminate].
  destruct (mapGet (points cps) BOX_POINT_1) as [b1|] eqn:E1; [|discriminate].
  destruct (mapGet (points cps) BOX_POINT_2) as [b2|] eqn:E2; [|discriminate].
  destruct (mapGet (points cps) LIGHT) as [l|] eqn:E3; [|discriminate].
  destruct (mapGet (points cps) LIGHT_DROP) as [ld|] eqn:E4; [|discriminate].
  simpl. intro H. injection H as <-. simpl.
  split; [|repeat split; reflexivity].
  intros [] Hk; simpl in *; congruence.
Qed.

(** X15: [new Config] succeeds exactly when the five kinds of control
    point are all in the map; the only error it throws is the one of
    [get]; and the config it returns holds the size and the control
    points it was given, the points of the map under their names, and a
    box of depth 50. *)
Theorem newConfig_total_iff (w h : Q) (cps : ControlPoints) :
  (totalMap (points cps) <-> exists c, newConfig w h cps = Ok c)
  /\ (forall e, newConfig w h cps = Throw e -> e = ControlPointTypeNotFound)
  /\ (forall c, newConfig w h cps = Ok c ->
        width c = w /\ height c = h /\ controlPoints c = cps
        /\ mapGet (points cps) VANISHING_POINT = Some (vanishingPoint c)
        /\ mapGet (points cps) BOX_POINT_1 = Some (p1 (box c))
        /\ mapGet (points cps) BOX_POINT_2 = Some (p2 (box c))
        /\ depth (box c) = 50
        /\ mapGet (points cps) LIGHT = Some (light c)
        /\ mapGet (points cps) LIGHT_DROP = Some (lightDrop c)).
Proof.
  split; [split|split].
  - intro Ht.
    destruct (newConfig_of_total w h cps Ht) as [vp [b1 [b2 [l [ld H]]]]].
    eexists. apply H.
  - intros [c Hc]. apply (newConfig_Ok _ _ _ _ Hc).
  - unfold newConfig, ControlPoints.get. intro e.
    destruct (mapGet (points cps) VANISHING_POINT); simpl; [|congruence].
    destruct (mapGet (points cps) BOX_POINT_1); simpl; [|congruence].
    destruct (mapGet (points cps) BOX_POINT_2); simpl; [|congruence].
    destruct (mapGet (points cps) LIGHT); simpl; [|congruence].
    destruct (mapGet (points cps) LIGHT_DROP); simpl; [discriminate|congruence].
  - intros c Hc. apply (newConfig_Ok _ _ _ _ Hc).
Qed.

(** ** The two versions of [moveTo] *)

Lemma replace_mapReplace (m : JsMap ControlPointType ControlPoint)
      (k : ControlPointType) (v : ControlPoint) :
  ControlPoints0.replace m k v = mapReplace m k (fun _ => v).
Proof. reflexivity. Qed.

(** Replacing the partner by a point made from the partner read
    beforehand is [mapReplace] with the function of the current
    version, in a map where a key occurs once. *)
Lemma replace_partner (m : JsMap ControlPointType ControlPoint)
      (k : ControlPointType) (old : ControlPoint) (nx : Q) :
  NoDup (List.map fst m) ->
  mapGet m k = Some old ->
  ControlPoints0.replace m k (newControlPoint (mkPoint nx (y old)))
  = mapReplace m k (fun cp => newControlPoint (mkPoint nx (y cp))).
Proof.
  intros Hnd Hget. unfold ControlPoints0.replace, mapReplace, mapMap.
  apply map_ext_in. intros [k' v] Hin. simpl.
  destruct (ControlPointType_eqb k' k) eqn:E; [|reflexivity].
  apply ControlPointType_eqb_eq in E. subst.
  rewrite (mapGet_unique m k old v Hnd Hget Hin). reflexivity.
Qed.

Lemma mapReplace_absent {V : Type} (m : JsMap ControlPointType V)
      (k : ControlPointType) (f : V -> V) :
  mapGet m k = None -> mapReplace m k f = m.
Proof.
  intro H. apply mapGet_None_keys in H.
  unfold mapReplace, mapMap.
  rewrite <- (map_id m) at 2. apply map_ext_in.
  intros [k' v] Hin. simpl.
  destruct (ControlPointType_eqb k' k) eqn:E; [|reflexivity].
  apply ControlPointType_eqb_eq in E. subst.
  exfalso. apply H. apply (in_map fst) in Hin. exact Hin.
Qed.

(** X16: the [moveTo] of [src/main.ts] against the [moveTo] of
    [src/src/main.ts], on a map where a key occurs once.  When the light
    or the light-drop is dragged and its partner is not in the map, the
    earlier one throws a [TypeError], where the current one returns the
    map with the selected point alone moved to [p - delta].  In every
    other state the earlier one returns the very state that the current
    one returns. *)
Theorem moveTo_versions_agree (this : ControlPoints) (p : Point) :
  NoDup (List.map fst (points this)) ->
  (forall sel d,
      selected this = Some sel ->
      delta this = Some d ->
      (sel = LIGHT /\ mapGet (points this) LIGHT_DROP = None)
      \/ (sel = LIGHT_DROP /\ mapGet (points this) LIGHT = None) ->
      ControlPoints0.moveTo this p = Throw TypeErrorUndefined
      /\ ControlPoints.moveTo this p
         = mkControlPoints
             (mapReplace (points this) sel
                         (fun _ => mkPoint (x p - vx d) (y p - vy d)))
             (Some sel) (Some d))
  /\ ((forall sel d,
         selected this = Some sel ->
         delta this = Some d ->
         ~ ((sel = LIGHT /\ mapGet (points this) LIGHT_DROP = None)
            \/ (sel = LIGHT_DROP /\ mapGet (points this) LIGHT = None))) ->
      ControlPoints0.moveTo this p = Ok (ControlPoints.moveTo this p)).
Proof.
  intro Hnd. split.
  - intros sel d Hsel Hd Hmiss.
    unfold ControlPoints0.moveTo, ControlPoints.moveTo. rewrite Hsel, Hd.
    rewrite replace_mapReplace. unfold ControlPoints0.getAs.
    destruct Hmiss as [[-> Hm]|[-> Hm]]; cbn [ControlPointType_eqb bind];
      rewrite mapGet_mapReplace_other by discriminate; rewrite Hm; cbn [bind];
      (split; [reflexivity|]); f_equal;
      apply mapReplace_absent;
      rewrite mapGet_mapReplace_other by discriminate; exact Hm.
  - intro Hno. unfold ControlPoints0.moveTo, ControlPoints.moveTo.
    destruct (selected this) as [sel|] eqn:Hsel; [|reflexivity].
    destruct (delta this) as [d|] eqn:Hd; [|reflexivity].
    specialize (Hno sel d eq_refl eq_refl).
    rewrite replace_mapReplace.
    set (newPoint := newControlPoint (Point.minus p d)).
    set (m1 := mapReplace (points this) sel (fun _ => newPoint)).
    assert (Hnd1 : NoDup (List.map fst m1))
      by (unfold m1; rewrite keys_mapReplace; exact Hnd).
    destruct sel; cbn [ControlPointType_eqb bind]; try reflexivity.
    + unfold ControlPoints0.getAs.
      destruct (mapGet m1 LIGHT_DROP) as [old|] eqn:E; cbn [bind].
      * rewrite (replace_partner m1 LIGHT_DROP old (x newPoint) Hnd1 E). reflexivity.
      * exfalso. apply Hno. left. split; [reflexivity|].
        unfold m1 in E. rewrite mapGet_mapReplace_other in E by discriminate.
        exact E.
    + unfold ControlPoints0.getAs.
      destruct (mapGet m1 LIGHT) as [old|] eqn:E; cbn [bind].
      * rewrite (replace_partner m1 LIGHT old (x newPoint) Hnd1 E). reflexivity.
      * exfalso. apply Hno. right. split; [reflexivity|].
        unfold m1 in E. rewrite mapGet_mapReplace_other in E by discriminate.
        exact E.
Qed.

(** The throwing case: the light dragged in a map without light-drop;
    and the agreeing case: the light dragged in the full map. *)
Lemma moveTo_versions_agree_witness :
  (ControlPoints0.moveTo
     (mkControlPoints
        [ (VANISHING_POINT, mkPoint 100 100); (LIGHT, mkPoint 20 50) ]
        (Some LIGHT) (Some (mkVector 1 2)))
     (mkPoint 40 50)
   = Throw TypeErrorUndefined
   /\ ControlPoints.moveTo
        (mkControlPoints
           [ (VANISHING_POINT, mkPoint 100 100); (LIGHT, mkPoint 20 50) ]
           (Some LIGHT) (Some (mkVector 1 2)))
        (mkPoint 40 50)
      = mkControlPoints
          [ (VANISHING_POINT, mkPoint 100 100); (LIGHT, mkPoint 39 48) ]
          (Some LIGHT) (Some (mkVector 1 2)))
  /\ ControlPoints0.moveTo
       (mkControlPoints scenarioPoints (Some LIGHT) (Some (mkVector 1 2)))
       (mkPoint 40 50)
     = Ok (ControlPoints.moveTo
             (mkControlPoints scenarioPoints (Some LIGHT) (Some (mkVector 1 2)))
             (mkPoint 40 50)).
Proof.
  split.
  - destruct (@moveTo_versions_agree
                (mkControlPoints
                   [ (VANISHING_POINT, mkPoint 100 100); (LIGHT, mkPoint 20 50) ]
                   (Some LIGHT) (Some (mkVector 1 2)))
                (mkPoint 40 50)) as [Hthrow _].
    + simpl. repeat constructor; simpl; intuition discriminate.
    + apply (Hthrow LIGHT (mkVector 1 2)); [reflexivity|reflexivity|].
      left. split; reflexivity.
  - destruct (@moveTo_versions_agree
                (mkControlPoints scenarioPoints (Some LIGHT) (Some (mkVector 1 2)))
                (mkPoint 40 50)) as [_ Hagree].
    + simpl. repeat constructor; simpl; intuition discriminate.
    + apply Hagree.
      intros sel d Hsel Hd [[_ H]|[_ H]]; vm_compute in H; discriminate H.
Defined.

(** ** The event handlers *)

Lemma totalMap_keys (m m' : JsMap ControlPointType ControlPoint) :
  List.map fst m' = List.map fst m -> totalMap m -> totalMap m'.
Proof.
  intros Hk Ht k Hn. apply (Ht k).
  apply mapGet_None_keys. rewrite <- Hk. apply mapGet_None_keys. exact Hn.
Qed.

Lemma moveTo_selection (this : ControlPoints) (p : Point) :
  selected (ControlPoints.moveTo this p) = selected this
  /\ delta (ControlPoints.moveTo this p) = delta this.
Proof.
  unfold ControlPoints.moveTo.
  destruct (selected this) eqn:Hs; [|rewrite Hs; split; reflexivity].
  destruct (delta this) eqn:Hd; [|rewrite Hs, Hd; split; reflexivity].
  simpl. split; congruence.
Qed.

Lemma select_bothOrNeither (this : ControlPoints) (p : Point) :
  bothOrNeither (ControlPoints.select this p).
Proof.
  unfold ControlPoints.select, bothOrNeither.
  destruct (List.find _ (points this)) as [[cpt cp]|]; simpl;
    split; intro H; first [discriminate H | reflexivity].
Qed.

Lemma moveTo_lightAboveDrop (this : ControlPoints) (p : Point) :
  lightAboveDrop (points this) ->
  lightAboveDrop (points (ControlPoints.moveTo this p)).
Proof.
  intros [l [d [Hl [Hd Hx]]]]. unfold ControlPoints.moveTo.
  destruct (selected this) as [sel|]; [|exists l, d; auto].
  destruct (delta this) as [dl|]; [|exists l, d; auto].
  unfold lightAboveDrop.
  destruct sel; cbn [ControlPointType_eqb points];
    rewrite ?mapGet_mapReplace_same,
            ?(@mapGet_mapReplace_other _ _ LIGHT LIGHT_DROP),
            ?(@mapGet_mapReplace_other _ _ LIGHT_DROP LIGHT),
            ?(@mapGet_mapReplace_other _ _ VANISHING_POINT),
            ?(@mapGet_mapReplace_other _ _ BOX_POINT_1),
            ?(@mapGet_mapReplace_other _ _ BOX_POINT_2),
            ?mapGet_mapReplace_same, ?Hl, ?Hd by discriminate;
    simpl; do 2 eexists; (split; [reflexivity|split; [reflexivity|]]);
    simpl; first [exact Hx | reflexivity].
Qed.

(** What one handler keeps. *)
Lemma handle_step (app : App) (e : Event) :
  wellFormed app ->
  exists app',
    handle app e = Ok app'
    /\ wellFormed app'
    /\ List.map fst (points (controlPoints (appConfig app')))
       = List.map fst (points (controlPoints (appConfig app)))
    /\ (lightAboveDrop (points (controlPoints (appConfig app))) ->
        lightAboveDrop (points (controlPoints (appConfig app')))).
Proof.
  intros [Hcfg [Htot Hbn]].
  assert (Hmk : forall w h cps,
             totalMap (points cps) -> bothOrNeither cps ->
             List.map fst (points cps)
             = List.map fst (points (controlPoints (appConfig app))) ->
             (lightAboveDrop (points (controlPoints (appConfig app))) ->
              lightAboveDrop (points cps)) ->
             exists app',
               (config <- newConfig w h cps ;; Ok (mkApp w h config)) = Ok app'
               /\ wellFormed app'
               /\ List.map fst (points (controlPoints (appConfig app')))
                  = List.map fst (points (controlPoints (appConfig app)))
               /\ (lightAboveDrop (points (controlPoints (appConfig app))) ->
                   lightAboveDrop (points (controlPoints (appConfig app'))))).
  { intros w h cps Ht Hb Hk Hl.
    destruct (newConfig_of_total w h cps Ht) as [vp [b1 [b2 [l [ld H]]]]].
    destruct H as [_ [_ [_ [_ [_ H]]]]].
    eexists. rewrite H. simpl. split; [reflexivity|].
    split; [|split; [exact Hk|exact Hl]].
    split; [exact H|]. split; [exact Ht|exact Hb]. }
  destruct e as [p| |p|w h]; simpl.
  - apply Hmk.
    + unfold ControlPoints.select.
      destruct (List.find _ _) as [[cpt cp]|]; exact Htot.
    + apply select_bothOrNeither.
    + unfold ControlPoints.select.
      destruct (List.find _ _) as [[cpt cp]|]; reflexivity.
    + unfold ControlPoints.select.
      destruct (List.find _ _) as [[cpt cp]|]; trivial.
  - apply Hmk; [exact Htot| |reflexivity|trivial].
    split; reflexivity.
  - destruct (selected (controlPoints (appConfig app))) eqn:Hs.
    + apply Hmk.
      * apply (totalMap_keys _ _ (moveTo_keys _ p) Htot).
      * unfold bothOrNeither.
        destruct (moveTo_selection (controlPoints (appConfig app)) p) as [-> ->].
        exact Hbn.
      * apply moveTo_keys.
      * apply moveTo_lightAboveDrop.
    + exists app. split; [reflexivity|].
      split; [split; [exact Hcfg|split; [exact Htot|exact Hbn]]|].
      split; [reflexivity|trivial].
  - apply Hmk; [exact Htot|exact Hbn|reflexivity|trivial].
Qed.

Lemma handleAll_steps (events : list Event) :
  forall app,
    wellFormed app ->
    exists app',
      handleAll app events = Ok app'
      /\ wellFormed app'
      /\ List.map fst (points (controlPoints (appConfig app')))
         = List.map fst (points (controlPoints (appConfig app)))
      /\ (lightAboveDrop (points (controlPoints (appConfig app))) ->
          lightAboveDrop (points (controlPoints (appConfig app')))).
Proof.
  induction events as [|e events IH]; intros app Hwf.
  - exists app. split; [reflexivity|]. split; [exact Hwf|].
    split; [reflexivity|trivial].
  - destruct (handle_step app e Hwf) as [app1 [H1 [Hwf1 [Hk1 Hl1]]]].
    destruct (IH app1 Hwf1) as [app' [H' [Hwf' [Hk' Hl']]]].
    exists app'. simpl. rewrite H1. simpl.
    split; [exact H'|]. split; [exact Hwf'|].
    split; [congruence|]. intro Hl. apply Hl', Hl1, Hl.
Qed.

(** X18: the light stays above its drop.  From a well-formed state in
    which the light and the light-drop have the same x, every sequence
    of events leaves a state in which they have the same x, in the map
    and in the [light] and [lightDrop] of the config that [Box.draw]
    reads. *)
Theorem handleAll_light_above_drop (app : App) (events : list Event) :
  wellFormed app ->
  lightAboveDrop (points (controlPoints (appConfig app))) ->
  exists app',
    handleAll app events = Ok app'
    /\ lightAboveDrop (points (controlPoints (appConfig app')))
    /\ x (light (appConfig app')) == x (lightDrop (appConfig app')).
Proof.
  intros Hwf Hl.
  destruct (handleAll_steps events app Hwf) as [app' [H [[Hcfg _] [_ Hl']]]].
  exists app'. split; [exact H|]. specialize (Hl' Hl). split; [exact Hl'|].
  destruct (newConfig_Ok _ _ _ _ Hcfg) as [_ [_ [_ [_ [_ [_ [_ [_ [H3 H4]]]]]]]]].
  destruct Hl' as [l [d [Hgl [Hgd Hx]]]].
  rewrite Hgl in H3. rewrite Hgd in H4.
  injection H3 as <-. injection H4 as <-. exact Hx.
Qed.

Lemma handleAll_light_above_drop_witness :
  exists app',
    handleAll
      (mkApp 800 600
         (mkConfig 800 600 (mkControlPoints scenarioPoints None None)
            (mkPoint 100 100) (mkBox (mkPoint 50 150) (mkPoint 150 200) 50)
            (mkPoint 20 50) (mkPoint 20 180)))
      [MouseDown (mkPoint 20 180); MouseMove (mkPoint 70 190); MouseUp]
    = Ok app'
    /\ lightAboveDrop (points (controlPoints (appConfig app')))
    /\ x (light (appConfig app')) == x (lightDrop (appConfig app')).
Proof.
  apply (@handleAll_light_above_drop
           (mkApp 800 600
              (mkConfig 800 600 (mkControlPoints scenarioPoints None None)
                 (mkPoint 100 100) (mkBox (mkPoint 50 150) (mkPoint 150 200) 50)
                 (mkPoint 20 50) (mkPoint 20 180)))
           [MouseDown (mkPoint 20 180); MouseMove (mkPoint 70 190); MouseUp]).
  - split; [reflexivity|]. split.
    + intros []; discriminate.
    + split; reflexivity.
  - exists (mkPoint 20 50), (mkPoint 20 180).
    split; [reflexivity|]. split; reflexivity.
Defined.

(** X20: only a drag moves control points.  A mouse press, a mouse
    release and a resize leave every control point where it was; a mouse
    move while nothing is selected leaves the whole state as it was. *)
Theorem handle_moves_only_on_drag (app app' : App) (e : Event) :
  handle app e = Ok app' ->
  match e with
  | MouseMove _ =>
      selected (controlPoints (appConfig app)) = None -> app' = app
  | _ =>
      points (controlPoints (appConfig app'))
      = points (controlPoints (appConfig app))
  end.
Proof.
  destruct e as [p| |p|w h]; simpl.
  - destruct (newConfig _ _ _) as [c|] eqn:E; [|discriminate].
    simpl. intro H. injection H as <-. simpl.
    destruct (newConfig_Ok _ _ _ _ E) as [_ [_ [_ [-> _]]]].
    unfold ControlPoints.select.
    destruct (List.find _ _) as [[cpt cp]|]; reflexivity.
  - destruct (newConfig _ _ _) as [c|] eqn:E; [|discriminate].
    simpl. intro H. injection H as <-. simpl.
    destruct (newConfig_Ok _ _ _ _ E) as [_ [_ [_ [-> _]]]]. reflexivity.
  - intros H Hs. rewrite Hs in H. injection H as <-. reflexivity.
  - destruct (newConfig _ _ _) as [c|] eqn:E; [|discriminate].
    simpl. intro H. injection H as <-. simpl.
    destruct (newConfig_Ok _ _ _ _ E) as [_ [_ [_ [-> _]]]]. reflexivity.
Qed.

Lemma handle_moves_only_on_drag_witness :
  points (controlPoints (appConfig
    (mkApp 1024 768
       (mkConfig 1024 768 (mkControlPoints scenarioPoints None None)
          (mkPoint 100 100) (mkBox (mkPoint 50 150) (mkPoint 150 200) 50)
          (mkPoint 20 50) (mkPoint 20 180)))))
  = scenarioPoints.
Proof.
  apply (@handle_moves_only_on_drag
           (mkApp 800 600
              (mkConfig 800 600 (mkControlPoints scenarioPoints None None)
                 (mkPoint 100 100) (mkBox (mkPoint 50 150) (mkPoint 150 200) 50)
                 (mkPoint 20 50) (mkPoint 20 180)))
           _ (Resize 1024 768)).
  reflexivity.
Defined.

(** ** The shadow of the box *)

Lemma allocate_length (base : nat) (ps : list Point) :
  length (allocate base ps) = length ps.
Proof.
  revert base. induction ps as [|p ps IH]; intro base; simpl;
    [reflexivity|rewrite IH; reflexivity].
Qed.

Lemma allocate_In (ps : list Point) :
  forall base r, In r (allocate base ps) -> In (target r) ps.
Proof.
  induction ps as [|p ps IH]; intros base r; simpl; [trivial|].
  intros [<-|H]; [left; reflexivity|right; apply (IH _ _ H)].
Qed.

(** On three points or more [convexHull] returns a list of input
    elements, one at least and [length s + 1] at most. *)
Lemma convexHull_returns (s : list PointRef) :
  (3 <= length s)%nat ->
  exists hull, convexHull s = Ok hull
               /\ (1 <= length hull <= length s + 1)%nat
               /\ forall r, In r hull -> In r s.
Proof.
  intro Hn. unfold convexHull.
  replace (Nat.ltb (length s) 3) with false
    by (symmetry; apply Nat.ltb_ge; exact Hn).
  destruct (leftmost_spec s) as [l [Hl [Hlt _]]]; [lia|].
  rewrite Hl. simpl.
  destruct (wrap_path s l (length s + 1) l [] Hlt) as
      [idxs [rest [Hw [Hf [Hlen _]]]]]; [lia|].
  exists rest. split; [exact Hw|].
  destruct (Forall2_positions _ _ _ Hf) as [H1 [H2 _]].
  split; [lia|exact H2].
Qed.

(** [Box.draw] as a chain of its four intersections and its hull. *)
Lemma Box_draw_unfold (this : Box) (config : Config) :
  let pull := fun p => Point.plus p
                (Vector.times (Point.vectorFrom (vanishingPoint config) p) (3 # 10)) in
  let f0 := p1 this in
  let f1 := mkPoint (x (p1 this)) (y (p2 this)) in
  let f2 := p2 this in
  let f3 := mkPoint (x (p2 this)) (y (p1 this)) in
  Box.draw this config =
  (v0 <- shadowVertex (light config) (lightDrop config) f1 f0 ;;
   v1 <- shadowVertex (light config) (lightDrop config) (pull f1) (pull f0) ;;
   v2 <- shadowVertex (light config) (lightDrop config) (pull f2) (pull f3) ;;
   v3 <- shadowVertex (light config) (lightDrop config) f2 f3 ;;
   fullShadow <- convexHull
                   (allocate 0 [v0; v1; v2; v3; f0; pull f0; pull f3; f3]) ;;
   Ok (List.map (fun p => (x (target p), y (target p))) fullShadow))
  /\ Box.shadowLoop this config =
     (v0 <- shadowVertex (light config) (lightDrop config) f1 f0 ;;
      v1 <- shadowVertex (light config) (lightDrop config) (pull f1) (pull f0) ;;
      v2 <- shadowVertex (light config) (lightDrop config) (pull f2) (pull f3) ;;
      v3 <- shadowVertex (light config) (lightDrop config) f2 f3 ;;
      Ok (mkShadowArrays
            [mkLine (light config) f1 true false;
             mkLine (light config) (pull f1) true false;
             mkLine (light config) (pull f2) true false;
             mkLine (light config) f2 true false]
            [mkLine (lightDrop config) f0 true false;
             mkLine (lightDrop config) (pull f0) true false;
             mkLine (lightDrop config) (pull f3) true false;
             mkLine (lightDrop config) f3 true false]
            [v0; v1; v2; v3])).
Proof.
  intros pull f0 f1 f2 f3. subst pull f0 f1 f2 f3.
  split.
  - unfold Box.draw.
    rewrite shadowLoop_unfold. unfold Box.shadowBody, shadowVertex.
    cbn [Box.topPoints Box.bottomPoints Box.frontPoints Box.backPoints
         bind index nth_error List.map].
    destruct (Line.intersectWith (mkLine (light config) _ true false) _);
      [cbn [bind index nth_error]|reflexivity].
    destruct (Line.intersectWith (mkLine (light config) _ true false) _);
      [cbn [bind index nth_error]|reflexivity].
    destruct (Line.intersectWith (mkLine (light config) _ true false) _);
      [cbn [bind index nth_error]|reflexivity].
    destruct (Line.intersectWith (mkLine (light config) _ true false) _);
      reflexivity.
  - rewrite shadowLoop_unfold. unfold Box.shadowBody, shadowVertex.
    cbn [Box.topPoints Box.bottomPoints Box.frontPoints Box.backPoints
         bind index nth_error List.map].
    destruct (Line.intersectWith (mkLine (light config) _ true false) _);
      [cbn [bind index nth_error]|reflexivity].
    destruct (Line.intersectWith (mkLine (light config) _ true false) _);
      [cbn [bind index nth_error]|reflexivity].
    destruct (Line.intersectWith (mkLine (light config) _ true false) _);
      [cbn [bind index nth_error]|reflexivity].
    destruct (Line.intersectWith (mkLine (light config) _ true false) _);
      reflexivity.
Qed.

Lemma shadowVertex_cases (l d top bottom : Point) :
  (exists v, shadowVertex l d top bottom = Ok v)
  \/ shadowVertex l d top bottom = Throw LinesAreParallel.
Proof.
  unfold shadowVertex.
  destruct (Qeq_dec (cross (direction (mkLine l top true false))
                           (direction (mkLine d bottom true false))) 0) as [E|E].
  - right. apply intersectWith_throws, E.
  - left. eexists. apply (intersectWith_returns _ _ E).
Qed.

(** X21: the only error that [Box.draw] can throw before it calls the
    renderer is the parallel-lines error of one of its four
    intersections: the hull is always given eight points, and no array
    is read out of range. *)
Theorem Box_draw_error (this : Box) (config : Config) (e : Error) :
  Box.draw this config = Throw e -> e = LinesAreParallel.
Proof.
  destruct (Box_draw_unfold this config) as [-> _].
  destruct (shadowVertex_cases (light config) (lightDrop config)
              (mkPoint (x (p1 this)) (y (p2 this))) (p1 this)) as [[v0 ->]| ->];
    [cbn [bind]|cbn [bind]; congruence].
  match goal with
  | |- context [shadowVertex ?l ?d ?t ?b] =>
      destruct (shadowVertex_cases l d t b) as [[v1 ->]| ->];
        [cbn [bind]|cbn [bind]; congruence]
  end.
  match goal with
  | |- context [shadowVertex ?l ?d ?t ?b] =>
      destruct (shadowVertex_cases l d t b) as [[v2 ->]| ->];
        [cbn [bind]|cbn [bind]; congruence]
  end.
  match goal with
  | |- context [shadowVertex ?l ?d ?t ?b] =>
      destruct (shadowVertex_cases l d t b) as [[v3 ->]| ->];
        [cbn [bind]|cbn [bind]; congruence]
  end.
  match goal with
  | |- context [convexHull ?s] =>
      destruct (convexHull_returns s) as [hull [-> _]]; [simpl; lia|]
  end.
  cbn [bind]. discriminate.
Qed.

Lemma Box_draw_error_witness :
  exists e,
    Box.draw (mkBox (mkPoint 50 150) (mkPoint 150 200) 50)
             (mkConfig 800 600 (mkControlPoints scenarioPoints None None)
                (mkPoint 100 100) (mkBox (mkPoint 50 150) (mkPoint 150 200) 50)
                (mkPoint 50 50) (mkPoint 50 180))
    = Throw e
    /\ e = LinesAreParallel.
Proof.
  eexists. split; [vm_compute; reflexivity|].
  apply (@Box_draw_error
           (mkBox (mkPoint 50 150) (mkPoint 150 200) 50)
           (mkConfig 800 600 (mkControlPoints scenarioPoints None None)
              (mkPoint 100 100) (mkBox (mkPoint 50 150) (mkPoint 150 200) 50)
              (mkPoint 50 50) (mkPoint 50 180))).
  vm_compute. reflexivity.
Defined.

(** A vertical edge and a light above its drop: the two rays are
    parallel exactly when the edge is on the vertical of the light, or is
    as high as the light is above its drop. *)
Lemma shadowVertex_throw_iff (l d top bottom : Point) :
  x l == x d ->
  x top == x bottom ->
  (shadowVertex l d top bottom = Throw LinesAreParallel
   <-> (x top == x l \/ y top - y bottom == y l - y d)).
Proof.
  intros Hl Ht. unfold shadowVertex. rewrite intersectWith_throw_iff.
  unfold cross, direction, Point.vectorFrom; simpl.
  assert (Hc : (x top - x l) * (y bottom - y d) - (y top - y l) * (x bottom - x d)
               == (x top - x l) * ((y bottom - y d) - (y top - y l))).
  { rewrite <- Ht, <- Hl. ring. }
  rewrite Hc. split.
  - intro H. apply Qmult_integral in H. destruct H as [H|H]; [left|right]; lra.
  - intros [H|H].
    + assert (H0 : x top - x l == 0) by lra. rewrite H0. ring.
    + assert (H0 : y bottom - y d - (y top - y l) == 0) by lra. rewrite H0. ring.
Qed.



(** X23: the back face is an upright rectangle like the front face, with
    its sides 7/10 of the front ones: the two back vertices of each side
    have the same x, those of the top and those of the bottom the same
    y. *)
Theorem backPoints_rectangle (this : Box) (config : Config) :
  exists b0 b1 b2 b3 : Point,
    Box.backPoints this config = [b0; b1; b2; b3]
    /\ x b0 == x b1 /\ x b2 == x b3
    /\ y b1 == y b2 /\ y b0 == y b3
    /\ x b3 - x b0 == (7 # 10) * (x (p2 this) - x (p1 this))
    /\ y b1 - y b0 == (7 # 10) * (y (p2 this) - y (p1 this)).
Proof.
  do 4 eexists. split; [reflexivity|]. simpl.
  repeat split; ring.
Qed.

(** X24: the polygon that [Box.draw] hands to the renderer has between 1
    and 9 vertices, and each of them is one of the four shadow vertices
    or one of the four bottom points of the box. *)
Theorem Box_draw_polygon_vertices (this : Box) (config : Config)
        (poly : list (Q * Q)) :
  Box.draw this config = Ok poly ->
  (1 <= length poly <= 9)%nat
  /\ exists (st : ShadowArrays) (bottom : list Point),
      Box.shadowLoop this config = Ok st
      /\ Box.bottomPoints this config = Ok bottom
      /\ length (shadow st) = 4%nat /\ length bottom = 4%nat
      /\ forall c, In c poly ->
           exists pt, In pt (shadow st ++ bottom) /\ c = (x pt, y pt).
Proof.
  destruct (Box_draw_unfold this config) as [-> ->].
  destruct (shadowVertex _ _ _ _) as [v0|]; [cbn [bind]|discriminate].
  destruct (shadowVertex _ _ _ _) as [v1|]; [cbn [bind]|discriminate].
  destruct (shadowVertex _ _ _ _) as [v2|]; [cbn [bind]|discriminate].
  destruct (shadowVertex _ _ _ _) as [v3|]; [cbn [bind]|discriminate].
  match goal with
  | |- context [convexHull ?s] =>
      destruct (convexHull_returns s) as [hull [-> [Hlen Hin]]]; [simpl; lia|]
  end.
  cbn [bind]. intro H. injection H as <-.
  rewrite length_map. split; [simpl in Hlen; lia|].
  do 2 eexists. split; [reflexivity|]. split; [reflexivity|].
  split; [reflexivity|]. split; [reflexivity|].
  intros c Hc. apply in_map_iff in Hc. destruct Hc as [r [<- Hr]].
  exists (target r). split; [|reflexivity].
  apply Hin in Hr. apply allocate_In in Hr. exact Hr.
Qed.

Lemma Box_draw_polygon_vertices_witness :
  exists poly,
    Box.draw (box collinearShadowScene) collinearShadowScene = Ok poly
    /\ (1 <= length poly <= 9)%nat.
Proof.
  eexists. split; [vm_compute; reflexivity|].
  apply (@Box_draw_polygon_vertices (box collinearShadowScene)
                                    collinearShadowScene).
  vm_compute. reflexivity.
Defined.

(** ** The hull of a triangle *)

Lemma isOnLeftOf_same12 (p q : PointRef) : isOnLeftOf p p q = false.
Proof. unfold isOnLeftOf, sameRef. rewrite Nat.eqb_refl. reflexivity. Qed.

Lemma isOnLeftOf_same1 (p q : PointRef) : isOnLeftOf p q p = false.
Proof.
  unfold isOnLeftOf, sameRef. rewrite (Nat.eqb_refl (addr p)).
  rewrite orb_true_r. reflexivity.
Qed.

Lemma isOnLeftOf_same2 (p q : PointRef) : isOnLeftOf p q q = false.
Proof.
  unfold isOnLeftOf, sameRef. rewrite (Nat.eqb_refl (addr q)).
  rewrite !orb_true_r. reflexivity.
Qed.

Section Triangle.
Variables a b c : PointRef.
Hypothesis Hab : sameRef a b = false.
Hypothesis Hac : sameRef a c = false.
Hypothesis Hbc : sameRef b c = false.

Ltac wrap_triangle H1 H2 H3 H4 H5 H6 :=
  repeat (cbn [wrap wrapStep forLoop bind index nth_error length
               Nat.add Nat.sub Nat.modulo Nat.divmod Nat.eqb Nat.leb fst snd app];
          rewrite ?isOnLeftOf_same12, ?isOnLeftOf_same1, ?isOnLeftOf_same2,
                  ?H1, ?H2, ?H3, ?H4, ?H5, ?H6).

Ltac triangle_cases H1 H2 H3 H4 H5 H6 :=
  unfold convexHull, leftmost;
  cbn [length Nat.ltb Nat.leb Nat.sub forLoop bind index nth_error Nat.add];
  destruct (Qltb (x (target b)) (x (target a)));
  cbn [forLoop bind index nth_error];
  match goal with
  | |- context [Qltb ?u ?v] => destruct (Qltb u v)
  end;
  wrap_triangle H1 H2 H3 H4 H5 H6;
  (eexists; split; [reflexivity|];
   first [ left; reflexivity
         | right; left; reflexivity
         | right; right; reflexivity ]).

(** X25: the hull of a triangle is the triangle.  For three distinct
    objects that the left-of test of the code itself sees turning one
    way all round (each point on the left of the line through the two
    others, taken in one rotation), [convexHull] returns the three
    points, each once, starting at the left-most and going round against
    that rotation: with [c] on the left of [a -> b] it is [a, c, b] up
    to the starting point, with [b] on the left of [a -> c] it is
    [a, b, c] up to the starting point. *)
Theorem convexHull_triangle :
  (isOnLeftOf a b c = true ->
   isOnLeftOf b c a = true ->
   isOnLeftOf c a b = true ->
   exists hull,
     convexHull [a; b; c] = Ok hull
     /\ (hull = [a; c; b] \/ hull = [c; b; a] \/ hull = [b; a; c]))
  /\ (isOnLeftOf a c b = true ->
      isOnLeftOf c b a = true ->
      isOnLeftOf b a c = true ->
      exists hull,
        convexHull [a; b; c] = Ok hull
        /\ (hull = [a; b; c] \/ hull = [b; c; a] \/ hull = [c; a; b])).
Proof.
  split.
  - intros H1 H2 H3.
    pose proof (isOnLeftOf_swap _ _ _ H1) as H4.
    pose proof (isOnLeftOf_swap _ _ _ H2) as H5.
    pose proof (isOnLeftOf_swap _ _ _ H3) as H6.
    triangle_cases H1 H2 H3 H4 H5 H6.
  - intros H1 H2 H3.
    pose proof (isOnLeftOf_swap _ _ _ H1) as H4.
    pose proof (isOnLeftOf_swap _ _ _ H2) as H5.
    pose proof (isOnLeftOf_swap _ _ _ H3) as H6.
    triangle_cases H1 H2 H3 H4 H5 H6.
Qed.
End Triangle.

Lemma convexHull_triangle_witness :
  exists hull,
    convexHull [mkRef 0 (mkPoint 0 0); mkRef 1 (mkPoint 4 0); mkRef 2 (mkPoint 0 3)]
    = Ok hull
    /\ (hull = [mkRef 0 (mkPoint 0 0); mkRef 2 (mkPoint 0 3); mkRef 1 (mkPoint 4 0)]
        \/ hull = [mkRef 2 (mkPoint 0 3); mkRef 1 (mkPoint 4 0); mkRef 0 (mkPoint 0 0)]
        \/ hull = [mkRef 1 (mkPoint 4 0); mkRef 0 (mkPoint 0 0); mkRef 2 (mkPoint 0 3)]).
Proof.
  apply (@convexHull_triangle
           (mkRef 0 (mkPoint 0 0)) (mkRef 1 (mkPoint 4 0)) (mkRef 2 (mkPoint 0 3)));
    vm_compute; reflexivity.
Defined.

(** ** The listeners in full *)

Lemma Box_draw_Throw (this : Box) (config : Config) (e : Error) :
  Box.draw this config = Throw e -> e = LinesAreParallel.
Proof.
  destruct (Box_draw_unfold this config) as [-> _].
  do 4 (match goal with
        | |- (bind (shadowVertex ?l ?d ?t ?b) _ = _ -> _) =>
            destruct (shadowVertex_cases l d t b) as [[? ->]| ->];
            cbn [bind]; [|congruence]
        end).
  match goal with
  | |- context [convexHull ?s] =>
      destruct (convexHull_returns s) as [hull [-> _]]; [simpl; lia|]
  end.
  cbn [bind]. discriminate.
Qed.

Lemma Config_draw_Throw (config : Config) (e : Error) :
  Config.draw config = Throw e ->
  e = LinesAreParallel
  /\ Box.draw (box config) config = Throw LinesAreParallel.
Proof.
  unfold Config.draw.
  destruct (Box.draw (box config) config) as [poly|e'] eqn:E; [discriminate|].
  simpl. intro H. injection H as <-.
  pose proof (Box_draw_Throw _ _ _ E) as He. subst. split; reflexivity.
Qed.

(** The state that a listener leaves is the one that [handle] assigns. *)
Lemma listener_state (app : App) (e : Event) :
  wellFormed app -> handle app e = Ok (fst (listener app e)).
Proof.
  intro Hwf. destruct (handle_step app e Hwf) as [app' [H _]].
  unfold listener. destruct e as [p| |p|w h]; try (rewrite H; reflexivity).
  simpl in *. destruct (selected (controlPoints (appConfig app)));
    [rewrite H|]; reflexivity.
Qed.

Lemma runListeners_handleAll (events : list Event) :
  forall app, wellFormed app -> handleAll app events = Ok (runListeners app events).
Proof.
  induction events as [|e events IH]; intros app Hwf; [reflexivity|].
  unfold runListeners. simpl.
  rewrite (listener_state app e Hwf). simpl.
  apply IH.
  destruct (handle_step app e Hwf) as [app' [H [Hwf' _]]].
  rewrite (listener_state app e Hwf) in H. injection H as <-. exact Hwf'.
Qed.

(** X17: no sequence of events breaks the state, and a listener throws
    nothing but the parallel-lines error of its [config.draw].  From a
    state that is what [new Config] makes of five control points, with
    [selected] and [delta] both defined or both undefined, the state
    after any sequence of events is again of that kind, with the same
    keys in the same order; [new Config] never throws in a listener; and
    when a listener throws, it is the parallel-lines error of
    [Box.draw], on the config that the listener has already assigned. *)
Theorem listeners_keep_state (app : App) (events : list Event) :
  wellFormed app ->
  wellFormed (runListeners app events)
  /\ List.map fst (points (controlPoints (appConfig (runListeners app events))))
     = List.map fst (points (controlPoints (appConfig app)))
  /\ handleAll app events = Ok (runListeners app events)
  /\ forall (e : Event) (err : Error),
      snd (listener (runListeners app events) e) = Throw err ->
      err = LinesAreParallel
      /\ handle (runListeners app events) e
         = Ok (fst (listener (runListeners app events) e))
      /\ Box.draw (box (appConfig (fst (listener (runListeners app events) e))))
                  (appConfig (fst (listener (runListeners app events) e)))
         = Throw LinesAreParallel.
Proof.
  intro Hwf.
  pose proof (runListeners_handleAll events app Hwf) as Hrun.
  destruct (handleAll_steps events app Hwf) as [app' [H [Hwf' [Hk _]]]].
  rewrite Hrun in H. injection H as <-.
  split; [exact Hwf'|]. split; [exact Hk|]. split; [exact Hrun|].
  intros e err Herr.
  pose proof (listener_state _ e Hwf') as Hst.
  assert (Hdraw : Config.draw (appConfig (fst (listener (runListeners app events) e)))
                  = Throw err).
  { revert Herr Hst. unfold listener.
    destruct e as [p| |p|w h];
      try (intros Herr Hst; rewrite Hst in Herr |- *; exact Herr).
    destruct (selected (controlPoints (appConfig (runListeners app events))));
      [|discriminate].
    intros Herr Hst; rewrite Hst in Herr |- *; exact Herr. }
  destruct (Config_draw_Throw _ _ Hdraw) as [-> Hbox].
  split; [reflexivity|]. split; [exact Hst|exact Hbox].
Qed.

Lemma listeners_keep_state_witness :
  wellFormed
    (runListeners
       (mkApp 800 600
          (mkConfig 800 600 (mkControlPoints scenarioPoints None None)
             (mkPoint 100 100) (mkBox (mkPoint 50 150) (mkPoint 150 200) 50)
             (mkPoint 20 50) (mkPoint 20 180)))
       [MouseDown (mkPoint 23 54); MouseMove (mkPoint 53 60); MouseUp])
  /\ snd (listener
            (mkApp 800 600
               (mkConfig 800 600
                  (mkControlPoints scenarioPoints (Some LIGHT) (Some (mkVector 3 4)))
                  (mkPoint 100 100) (mkBox (mkPoint 50 150) (mkPoint 150 200) 50)
                  (mkPoint 20 50) (mkPoint 20 180)))
            (MouseMove (mkPoint 53 60)))
     = Throw LinesAreParallel.
Proof.
  split.
  - apply (@listeners_keep_state
             (mkApp 800 600
                (mkConfig 800 600 (mkControlPoints scenarioPoints None None)
                   (mkPoint 100 100) (mkBox (mkPoint 50 150) (mkPoint 150 200) 50)
                   (mkPoint 20 50) (mkPoint 20 180)))
             [MouseDown (mkPoint 23 54); MouseMove (mkPoint 53 60); MouseUp]).
    split; [reflexivity|]. split.
    + intros []; discriminate.
    + split; reflexivity.
  - vm_compute. reflexivity.
Defined.

(** X19: the application as [main] starts it.  [main] throws only when
    there is no drawing context, or with the parallel-lines error of its
    first [config.draw], as it does for every window of width 0; then no
    listener is registered.  When [main] returns, the state after any
    sequence of mouse and resize events is what [new Config] makes of
    the five control points in their order, and the light is above its
    drop. *)
Theorem main_then_events (innerWidth innerHeight : Q) (contextIsNull : bool) :
  (forall e, main innerWidth innerHeight contextIsNull = Throw e ->
             (contextIsNull = true /\ e = ContextIsNull)
             \/ (contextIsNull = false /\ e = LinesAreParallel))
  /\ main 0 innerHeight false = Throw LinesAreParallel
  /\ (forall app0, main innerWidth innerHeight contextIsNull = Ok app0 ->
        forall events : list Event,
          wellFormed (runListeners app0 events)
          /\ List.map fst (points (controlPoints (appConfig (runListeners app0 events))))
             = [VANISHING_POINT; BOX_POINT_1; BOX_POINT_2; LIGHT; LIGHT_DROP]
          /\ x (light (appConfig (runListeners app0 events)))
             == x (lightDrop (appConfig (runListeners app0 events)))).
Proof.
  split; [|split].
  - intro e. unfold main. destruct contextIsNull.
    + intro H. injection H as <-. left. split; reflexivity.
    + cbn [newConfig ControlPoints.get initialControlPoints points mapGet
           ControlPointType_eqb bind].
      destruct (Config.draw _) as [[]|e'] eqn:E; [discriminate|].
      simpl. intro H. injection H as <-.
      destruct (Config_draw_Throw _ _ E) as [-> _]. right. split; reflexivity.
  - unfold main.
    cbn [newConfig ControlPoints.get initialControlPoints points mapGet
         ControlPointType_eqb bind].
    unfold Config.draw.
    destruct (Box_draw_unfold
                (mkBox (newControlPoint (mkPoint (0 / 4) (innerHeight / 2 + 300)))
                       (newControlPoint (mkPoint (0 / 4 + 300) (innerHeight / 2 + 50)))
                       50)
                (mkConfig 0 innerHeight (initialControlPoints 0 innerHeight)
                   (newControlPoint (mkPoint (0 / 2) (innerHeight / 2)))
                   (mkBox (newControlPoint (mkPoint (0 / 4) (innerHeight / 2 + 300)))
                          (newControlPoint (mkPoint (0 / 4 + 300) (innerHeight / 2 + 50)))
                          50)
                   (newControlPoint (mkPoint (0 / 5) (innerHeight / 4)))
                   (newControlPoint (mkPoint (0 / 5) (innerHeight * (60 # 100))))))
      as [Hdraw _].
    cbn [box] in Hdraw |- *. rewrite Hdraw.
    match goal with
    | |- context [bind (shadowVertex ?l ?d ?t ?b) _] =>
        replace (shadowVertex l d t b) with (@Throw Point LinesAreParallel)
    end; [reflexivity|].
    symmetry. apply shadowVertex_throw_iff.
    + reflexivity.
    + reflexivity.
    + left. reflexivity.
  - intros app0 Hmain events.
    assert (Happ0 : wellFormed app0
                    /\ List.map fst (points (controlPoints (appConfig app0)))
                       = [VANISHING_POINT; BOX_POINT_1; BOX_POINT_2; LIGHT; LIGHT_DROP]
                    /\ lightAboveDrop (points (controlPoints (appConfig app0)))).
    { revert Hmain. unfold main. destruct contextIsNull; [discriminate|].
      cbn [newConfig ControlPoints.get initialControlPoints points mapGet
           ControlPointType_eqb bind].
      destruct (Config.draw _) as [[]|e']; [|discriminate].
      simpl. intro H. injection H as <-.
      split; [|split; [reflexivity|]].
      - split; [reflexivity|]. split.
        + intros []; discriminate.
        + split; reflexivity.
      - do 2 eexists. split; [reflexivity|]. split; reflexivity. }
    destruct Happ0 as [Hwf [Hkeys Hlight]].
    pose proof (runListeners_handleAll events app0 Hwf) as Hrun.
    destruct (handleAll_steps events app0 Hwf) as [app' [H [Hwf' [Hk Hl]]]].
    rewrite Hrun in H. injection H as <-.
    split; [exact Hwf'|]. split; [congruence|].
    destruct Hwf' as [Hcfg _].
    destruct (newConfig_Ok _ _ _ _ Hcfg) as [_ [_ [_ [_ [_ [_ [_ [_ [H3 H4]]]]]]]]].
    destruct (Hl Hlight) as [l [d [Hgl [Hgd Hx]]]].
    rewrite Hgl in H3. rewrite Hgd in H4.
    injection H3 as <-. injection H4 as <-. exact Hx.
Qed.
